(** * The contact-submission handler (supabase/functions/submit-contact/index.ts)

    A shallow embedding of the edge function that receives the portfolio's
    contact form: the in-memory rate limiter, the three field validators,
    and the request handler with its try/catch, followed by the properties
    the specification states about them.

    Conventions.
    - A JavaScript string is the list of its UTF-16 code units ([list N]);
      [String.prototype.length] is the length of that list.
    - [Date.now()] is an integer number of milliseconds, passed in as [now].
    - The rate-limit [Map] is a [gmap] from addresses to records; the
      in-place [record.count++] is the insertion of the updated record.
    - A thrown exception is the [Throw] outcome of a small error monad; the
      handler's [catch] turns it into the generic 500 response.
    - [console.log] and [console.error] have no effect on the response or on
      the store and are left out. *)

From Stdlib Require Import ZArith NArith Lia Bool List String Ascii.
From stdpp Require Import base option list gmap.

Local Open Scope Z_scope.

(** ** JavaScript strings *)

Module JsString.

Definition t : Type := list N.

(** An ASCII literal as a JavaScript string. *)
Definition js (s : string) : t := List.map N_of_ascii (list_ascii_of_string s).

(** [s.length] *)
Definition len (s : t) : Z := Z.of_nat (List.length s).

(** WhiteSpace and LineTerminator code points of ECMAScript, the ones
    [String.prototype.trim] strips. *)
Definition isWhiteSpace (c : N) : bool :=
  ((9 <=? c) && (c <=? 13) || (c =? 32) || (c =? 160) || (c =? 5760)
   || (8192 <=? c) && (c <=? 8202) || (c =? 8232) || (c =? 8233)
   || (c =? 8239) || (c =? 8287) || (c =? 12288) || (c =? 65279))%N.

Fixpoint trimStart (s : t) : t :=
  match s with
  | [] => []
  | c :: s' => if isWhiteSpace c then trimStart s' else s
  end.

Definition trimEnd (s : t) : t := rev (trimStart (rev s)).

(** [s.trim()] *)
Definition trim (s : t) : t := trimEnd (trimStart s).

(** [s.split(",")[0]]: everything before the first comma. *)
Fixpoint beforeComma (s : t) : t :=
  match s with
  | [] => []
  | c :: s' => if (c =? 44)%N then [] else c :: beforeComma s'
  end.

(** [toLowerCase] restricted to ASCII. *)
Definition lowerUnit (c : N) : N :=
  if ((65 <=? c) && (c <=? 90))%N then (c + 32)%N else c.

Definition asciiLower (s : t) : t := List.map lowerUnit s.

Definition isAscii (c : N) : Prop := (c < 128)%N.

End JsString.

Import JsString.

(** ** Regular expressions

    The only regular expression of the handler has no flags, no groups and
    is anchored with [^] and [$], so [RegExp.prototype.test] answers whether
    the whole string belongs to its language.  Character classes are
    predicates on code units. *)

Module Regex.

Inductive regex : Type :=
  | Void
  | Eps
  | Class (p : N -> bool)
  | Seq (r1 r2 : regex)
  | Alt (r1 r2 : regex)
  | Star (r : regex).

(** [r+] and [r{2,}] *)
Definition plus (r : regex) : regex := Seq r (Star r).
Definition atLeast2 (r : regex) : regex := Seq r (Seq r (Star r)).
Definition lit (c : N) : regex := Class (N.eqb c).

Fixpoint nullable (r : regex) : bool :=
  match r with
  | Void => false
  | Eps => true
  | Class _ => false
  | Seq r1 r2 => nullable r1 && nullable r2
  | Alt r1 r2 => nullable r1 || nullable r2
  | Star _ => true
  end.

(** What is left of [r] once the code unit [c] has been read. *)
Fixpoint deriv (c : N) (r : regex) : regex :=
  match r with
  | Void => Void
  | Eps => Void
  | Class p => if p c then Eps else Void
  | Seq r1 r2 =>
      if nullable r1 then Alt (Seq (deriv c r1) r2) (deriv c r2)
      else Seq (deriv c r1) r2
  | Alt r1 r2 => Alt (deriv c r1) (deriv c r2)
  | Star r1 => Seq (deriv c r1) (Star r1)
  end.

Fixpoint test (r : regex) (s : JsString.t) : bool :=
  match s with
  | [] => nullable r
  | c :: s' => test (deriv c r) s'
  end.

(** The language of a regular expression. *)
Inductive matches : regex -> JsString.t -> Prop :=
  | MEps : matches Eps []
  | MClass p c : p c = true -> matches (Class p) [c]
  | MSeq r1 r2 s1 s2 :
      matches r1 s1 -> matches r2 s2 -> matches (Seq r1 r2) (s1 ++ s2)
  | MAltL r1 r2 s : matches r1 s -> matches (Alt r1 r2) s
  | MAltR r1 r2 s : matches r2 s -> matches (Alt r1 r2) s
  | MStarNil r : matches (Star r) []
  | MStarApp r s1 s2 :
      matches r s1 -> matches (Star r) s2 -> matches (Star r) (s1 ++ s2).

End Regex.

Import Regex.

(** ** Validation functions *)

Definition isLetter (c : N) : bool :=
  ((65 <=? c) && (c <=? 90) || (97 <=? c) && (c <=? 122))%N.

Definition isDigit (c : N) : bool := ((48 <=? c) && (c <=? 57))%N.

(** [[A-Za-z0-9._%+-]] *)
Definition isLocalUnit (c : N) : bool :=
  (isLetter c || isDigit c || (c =? 46) || (c =? 95) || (c =? 37)
   || (c =? 43) || (c =? 45))%N.

(** [[A-Za-z0-9.-]] *)
Definition isDomainUnit (c : N) : bool :=
  (isLetter c || isDigit c || (c =? 46) || (c =? 45))%N.

(** [/^[A-Za-z0-9._%+-]+@[A-Za-z0-9.-]+\.[A-Za-z]{2,}$/] *)
Definition emailRegex : regex :=
  Seq (plus (Class isLocalUnit))
    (Seq (lit 64)
       (Seq (plus (Class isDomainUnit))
          (Seq (lit 46) (atLeast2 (Class isLetter))))).

(** ** JSON values and exceptions *)

(** What [req.json()] can resolve to.  An object is the list of its own
    properties in insertion order (the order [JSON.stringify] prints).  The
    payload of a number is never inspected by the handler. *)
#[warnings="-register-all"]
Inductive json : Type :=
  | JNull
  | JBool (b : bool)
  | JNum (n : Z)
  | JStr (s : JsString.t)
  | JArr (items : list json)
  | JObj (props : list (JsString.t * json)).

(** A binding of the handler: [None] is [undefined]. *)
Definition jsval : Type := option json.

Fixpoint assoc (k : JsString.t) (props : list (JsString.t * json)) : jsval :=
  match props with
  | [] => None
  | (k', v) :: rest => if decide (k = k') then Some v else assoc k rest
  end.

Inductive error : Type :=
  | SyntaxError
  | TypeError
  | ClientError.

(** A computation that returns or throws. *)
Inductive exn (A : Type) : Type :=
  | Ret (a : A)
  | Throw (e : error).
Arguments Ret {A} a.
Arguments Throw {A} e.

Definition bind {A B : Type} (m : exn A) (k : A -> exn B) : exn B :=
  match m with
  | Ret a => k a
  | Throw e => Throw e
  end.

Notation "'let*' x ':=' m 'in' k" := (bind m (fun x => k))
  (at level 10, x name, m at level 100, k at level 200).

(** [body.key] inside [const { name, email, message } = body]: destructuring
    [null] throws; an array, a number, a boolean or a string has none of the
    three properties. *)
Definition getProp (body : json) (k : JsString.t) : exn jsval :=
  match body with
  | JNull => Throw TypeError
  | JObj props => Ret (assoc k props)
  | _ => Ret None
  end.

(** [v?.trim()]: [undefined] for [undefined] and [null], the trimmed string
    for a string, and a TypeError for any other JSON value, none of which
    has a callable [trim]. *)
Definition optTrim (v : jsval) : exn (option JsString.t) :=
  match v with
  | None | Some JNull => Ret None
  | Some (JStr s) => Ret (Some (trim s))
  | Some _ => Throw TypeError
  end.

(** [v.trim()] *)
Definition callTrim (v : jsval) : exn JsString.t :=
  match v with
  | Some (JStr s) => Ret (trim s)
  | _ => Throw TypeError
  end.

(** ** Rate limiting: max 5 submissions per hour per IP *)

Definition RATE_LIMIT_WINDOW_MS : Z := 60 * 60 * 1000.
Definition MAX_SUBMISSIONS_PER_WINDOW : Z := 5.

Record record : Type := mkRecord { count : Z; windowStart : Z }.

Abbreviation store := (gmap JsString.t record).

Definition isRateLimited (now : Z) (ip : JsString.t) (st : store)
  : bool * store :=
  match st !! ip with
  | None => (false, <[ip := mkRecord 1 now]> st)
  | Some r =>
      if now - windowStart r >? RATE_LIMIT_WINDOW_MS
      then (false, <[ip := mkRecord 1 now]> st)
      else if count r >=? MAX_SUBMISSIONS_PER_WINDOW
      then (true, st)
      else (false, <[ip := mkRecord (count r + 1) (windowStart r)]> st)
  end.

(** ** Validation results *)

Record validation : Type := mkValidation
  { valid : bool; verror : option JsString.t }.

Definition ok : validation := mkValidation true None.
Definition invalid (msg : string) : validation :=
  mkValidation false (Some (js msg)).

Definition validateName (name : jsval) : exn validation :=
  let* trimmed := optTrim name in
  Ret match trimmed with
      | None | Some [] => invalid "Name is required"
      | Some t =>
          if len t <? 2 then invalid "Name must be at least 2 characters"
          else if len t >? 100
          then invalid "Name must be less than 100 characters"
          else ok
      end.

Definition validateMessage (message : jsval) : exn validation :=
  let* trimmed := optTrim message in
  Ret match trimmed with
      | None | Some [] => invalid "Message is required"
      | Some t =>
          if len t <? 10 then invalid "Message must be at least 10 characters"
          else if len t >? 5000
          then invalid "Message must be less than 5000 characters"
          else ok
      end.

(** ** Requests and responses *)

Record request : Type := mkRequest
  { method : JsString.t;
    forwardedFor : option JsString.t;   (* headers.get("x-forwarded-for") *)
    connectingIp : option JsString.t;   (* headers.get("cf-connecting-ip") *)
    reqJson : exn json }.               (* what req.json() settles to *)

Inductive payload : Type :=
  | Text (s : JsString.t)
  | Stringify (j : json).

Record response : Type := mkResponse
  { status : Z; headers : list (string * string); body : payload }.

Definition corsHeaders : list (string * string) :=
  [ ("Access-Control-Allow-Origin", "*");
    ("Access-Control-Allow-Headers",
     "authorization, x-client-info, apikey, content-type, x-supabase-client-platform, x-supabase-client-platform-version, x-supabase-client-runtime, x-supabase-client-runtime-version") ]%string.

Definition jsonHeaders : list (string * string) :=
  corsHeaders ++ [ ("Content-Type", "application/json") ]%string.

(** [JSON.stringify({ error: e })]: a property whose value is [undefined]
    is left out. *)
Definition stringifyError (e : option JsString.t) : payload :=
  Stringify (JObj match e with
                  | Some msg => [ (js "error", JStr msg) ]
                  | None => []
                  end).

Definition errorResponse (code : Z) (msg : string) : response :=
  mkResponse code jsonHeaders (stringifyError (Some (js msg))).

Definition successResponse : response :=
  mkResponse 200 jsonHeaders
    (Stringify (JObj [ (js "success", JBool true);
                       (js "message", JStr (js "Message sent successfully")) ])).

(** The row handed to [supabase.from("contact_messages").insert]. *)
Record row : Type := mkRow
  { row_name : JsString.t; row_email : JsString.t; row_message : JsString.t }.

(** How the persistence collaborator behaves for one request:
    [createClient] throws (a missing URL or key), the insert comes back with
    an error, or the insert comes back without one. *)
Inductive backend : Type :=
  | ClientThrows
  | InsertFails
  | InsertSucceeds.

(** What one invocation produced: the response, and the row [insert] was
    called with, when it was called. *)
Record result : Type := mkResult
  { resp : response; insertCall : option row }.

Definition respond (r : response) : result := mkResult r None.

(** [a || b] on strings that may be [undefined], [null] or empty. *)
Definition orElse (a : option JsString.t) (b : option JsString.t)
  : option JsString.t :=
  match a with
  | Some (c :: s) => Some (c :: s)
  | _ => b
  end.

Definition clientIP (req : request) : JsString.t :=
  match orElse (orElse (option_map (fun h => trim (beforeComma h))
                          (forwardedFor req))
                  (connectingIp req))
          (Some (js "unknown")) with
  | Some ip => ip
  | None => js "unknown"
  end.

(** ** The handler *)

Section Handler.

(** [String.prototype.toLowerCase] follows the Unicode case mappings, which
    are not part of the repository; on ASCII it is [asciiLower]. *)
Variable toLowerCase : JsString.t -> JsString.t.

(** [v?.trim().toLowerCase()] *)
Definition optTrimLower (v : jsval) : exn (option JsString.t) :=
  let* trimmed := optTrim v in
  Ret (option_map toLowerCase trimmed).

Definition validateEmail (email : jsval) : exn validation :=
  let* trimmed := optTrimLower email in
  Ret match trimmed with
      | None | Some [] => invalid "Email is required"
      | Some t =>
          if len t >? 255 then invalid "Email must be less than 255 characters"
          else if negb (test emailRegex t)
          then invalid "Please enter a valid email address"
          else ok
      end.

Definition validationResponse (v : validation) : response :=
  mkResponse 400 jsonHeaders (stringifyError (verror v)).

(** Lines 136-163: the client, the sanitized row, the insert, and the
    response that depends on [insertError]. *)
Definition insertStep (be : backend) (name email message : jsval)
  : exn result :=
  match be with
  | ClientThrows => Throw ClientError
  | _ =>
      let* n := callTrim name in
      let* e := callTrim email in
      let* m := callTrim message in
      let r := mkRow n (toLowerCase e) m in
      Ret match be with
          | InsertSucceeds => mkResult successResponse (Some r)
          | _ => mkResult
                   (errorResponse 500
                      "Failed to submit message. Please try again.")
                   (Some r)
          end
  end.

(** Lines 107-163: everything after the rate-limit gate. *)
Definition process (req : request) (be : backend) : exn result :=
  let* body := reqJson req in
  let* name := getProp body (js "name") in
  let* email := getProp body (js "email") in
  let* message := getProp body (js "message") in
  let* nameValidation := validateName name in
  if negb (valid nameValidation)
  then Ret (respond (validationResponse nameValidation))
  else
    let* emailValidation := validateEmail email in
    if negb (valid emailValidation)
    then Ret (respond (validationResponse emailValidation))
    else
      let* messageValidation := validateMessage message in
      if negb (valid messageValidation)
      then Ret (respond (validationResponse messageValidation))
      else insertStep be name email message.

(** The body of the [try]. *)
Definition tryBlock (now : Z) (req : request) (be : backend) (st : store)
  : store * exn result :=
  if negb (bool_decide (method req = js "POST"))
  then (st, Ret (respond (errorResponse 405 "Method not allowed")))
  else
    let '(limited, st') := isRateLimited now (clientIP req) st in
    if limited
    then (st', Ret (respond (errorResponse 429
                               "Too many submissions. Please try again later.")))
    else (st', process req be).

Definition handler (now : Z) (req : request) (be : backend) (st : store)
  : store * result :=
  if bool_decide (method req = js "OPTIONS")
  then (st, respond (mkResponse 200 corsHeaders (Text (js "ok"))))
  else
    match tryBlock now req be st with
    | (st', Ret r) => (st', r)
    | (st', Throw _) =>
        (st', respond (errorResponse 500
                         "An unexpected error occurred. Please try again."))
    end.

(** ** Sequences of invocations on one running instance *)

Record event : Type := mkEvent
  { ev_now : Z; ev_req : request; ev_backend : backend }.

Definition serve (st : store) (e : event) : store * result :=
  handler (ev_now e) (ev_req e) (ev_backend e) st.

Fixpoint run (st : store) (es : list event) : store * list (event * result) :=
  match es with
  | [] => (st, [])
  | e :: es' =>
      let '(st1, r) := serve st e in
      let '(st2, log) := run st1 es' in
      (st2, (e, r) :: log)
  end.

End Handler.

(** ** Vocabulary of the specification *)

(** The shape [local-part@domain.tld] in the specification's words. *)
Definition emailShape (s : JsString.t) : Prop :=
  exists localPart domain tld : JsString.t,
    s = localPart ++ [64%N] ++ domain ++ [46%N] ++ tld
    /\ localPart <> [] /\ Forall (fun c => isLocalUnit c = true) localPart
    /\ domain <> [] /\ Forall (fun c => isDomainUnit c = true) domain
    /\ (2 <= List.length tld)%nat /\ Forall (fun c => isLetter c = true) tld.

(** A POST whose source address is [ip]. *)
Definition isPostFrom (ip : JsString.t) (e : event) : bool :=
  bool_decide (method (ev_req e) = js "POST")
  && bool_decide (clientIP (ev_req e) = ip).

(** The response is not the rate limiter's. *)
Definition admitted (r : result) : bool := negb (status (resp r) =? 429).

(** How many POSTs from [ip] went past the rate limiter. *)
Definition admittedFrom (ip : JsString.t) (log : list (event * result)) : nat :=
  List.length (List.filter (fun er => isPostFrom ip (fst er) && admitted (snd er)) log).

(** How many POSTs from [ip] the trace holds. *)
Definition submissions (ip : JsString.t) (es : list event) : nat :=
  List.length (List.filter (isPostFrom ip) es).

(** A request that carries neither of the two address headers. *)
Definition headerless (req : request) : bool :=
  match forwardedFor req, connectingIp req with
  | None, None => true
  | _, _ => false
  end.

Definition admittedHeaderless (log : list (event * result)) : nat :=
  List.length
    (List.filter
       (fun er => bool_decide (method (ev_req (fst er)) = js "POST")
                  && headerless (ev_req (fst er)) && admitted (snd er)) log).

(** The record of [ip] is missing or expired at [now]: the next submission
    from [ip] starts a window. *)
Definition opensWindow (ip : JsString.t) (now : Z) (st : store) : Prop :=
  match st !! ip with
  | None => True
  | Some r => now - windowStart r > RATE_LIMIT_WINDOW_MS
  end.

(** A POST from [ip] arrives no later than the end of the window that
    started at [t0]. *)
Definition withinWindow (ip : JsString.t) (t0 : Z) (e : event) : Prop :=
  isPostFrom ip e = true -> ev_now e - t0 <= RATE_LIMIT_WINDOW_MS.

(** A POST that the rate limiter lets through and whose parsed body binds
    [name], [email] and [message]: the request gets to the validation
    sequence. *)
Definition reachesValidation (now : Z) (req : request) (st : store)
    (name email message : jsval) : Prop :=
  method req = js "POST"
  /\ fst (isRateLimited now (clientIP req) st) = false
  /\ exists body,
       reqJson req = Ret body
       /\ getProp body (js "name") = Ret name
       /\ getProp body (js "email") = Ret email
       /\ getProp body (js "message") = Ret message.

(** The responses the claims name. *)
Definition tooManyRequests : response :=
  errorResponse 429 "Too many submissions. Please try again later.".

Definition unexpectedError : response :=
  errorResponse 500 "An unexpected error occurred. Please try again.".

(** The two shapes of a JSON response of the endpoint. *)
Definition isErrorResponse (r : response) : Prop :=
  exists msg, body r = stringifyError (Some msg)
              /\ In (status r) [400; 405; 429; 500].

Definition isSuccessResponse (r : response) : Prop :=
  exists msg, body r = Stringify (JObj [ (js "success", JBool true);
                                         (js "message", JStr msg) ])
              /\ status r = 200.

Definition structured (r : response) : Prop :=
  isErrorResponse r \/ isSuccessResponse r.

(** The cross-origin headers are among the headers of the response. *)
Definition hasCorsHeaders (r : response) : Prop :=
  forall h, In h corsHeaders -> In h (headers r).

(** A name outside the bounds: missing ([undefined] or [null]), or a string
    whose trimmed length is below 2 (empty and whitespace-only included) or
    above 100. *)
Definition nameOutOfBounds (name : jsval) : Prop :=
  match name with
  | None | Some JNull => True
  | Some (JStr n) => len (trim n) < 2 \/ len (trim n) > 100
  | Some _ => False
  end.

(** A POST without address headers carrying the given JSON body. *)
Definition postJson (body : json) : request :=
  mkRequest (js "POST") None None (Ret body).

Definition contactBody (name email : string) (message : json) : json :=
  JObj [ (js "name", JStr (js name)); (js "email", JStr (js email));
         (js "message", message) ].

(** The error messages of each validator. *)
Definition nameErrors : list JsString.t :=
  [ js "Name is required"; js "Name must be at least 2 characters";
    js "Name must be less than 100 characters" ].

Definition emailErrors : list JsString.t :=
  [ js "Email is required"; js "Email must be less than 255 characters";
    js "Please enter a valid email address" ].

Definition messageErrors : list JsString.t :=
  [ js "Message is required"; js "Message must be at least 10 characters";
    js "Message must be less than 5000 characters" ].

(** A 400-class response carrying the message of one of the validators. *)
Definition fieldErrorResponse (r : response) : Prop :=
  400 <= status r < 500
  /\ exists msg, In msg (nameErrors ++ emailErrors ++ messageErrors)
                 /\ body r = stringifyError (Some msg).

(** ** Sample inputs *)

Definition sampleAddress : JsString.t := js "203.0.113.7".

(** A POST at time [t] whose x-forwarded-for names [sampleAddress]. *)
Definition submissionAt (t : Z) (body : exn json) (be : backend) : event :=
  mkEvent t (mkRequest (js "POST") (Some sampleAddress) None body) be.

(** A POST at time [t] with no address header. *)
Definition anonymousAt (t : Z) (body : exn json) (be : backend) : event :=
  mkEvent t (mkRequest (js "POST") None None body) be.

Definition shortName : exn json :=
  Ret (contactBody "A" "x@y.com" (JStr (js "Hi"))).

Definition goodBody : exn json :=
  Ret (contactBody "Al" "A@B.COM" (JStr (js "Hello there!"))).

Definition unparsable : request :=
  mkRequest (js "POST") None None (Throw SyntaxError).

Definition preflight : request :=
  mkRequest (js "OPTIONS") None None (Throw SyntaxError).

(** A validator answers [ok] or an invalid result carrying one of its own
    messages. *)
Definition answers (msgs : list JsString.t) (v : validation) : Prop :=
  v = ok \/ exists msg, v = mkValidation false (Some msg) /\ In msg msgs.

(** What the [catch] makes of the outcome of the [try] body after the gate. *)
Definition caught (m : exn result) : result :=
  match m with
  | Ret r => r
  | Throw _ => respond unexpectedError
  end.

(** ** Further vocabulary: the rest of the handler *)

(** Every record holds a count the limiter can have written. *)
Definition wellCounted (st : store) : Prop :=
  forall (ip : JsString.t) (r : record),
    st !! ip = Some r -> 1 <= count r <= MAX_SUBMISSIONS_PER_WINDOW.

(** The bounds the validators put on the three columns of a row. *)
Definition rowWithinBounds (r : row) : Prop :=
  2 <= len (row_name r) <= 100
  /\ len (row_email r) <= 255 /\ emailShape (row_email r)
  /\ 10 <= len (row_message r) <= 5000.

(** A JSON value that is neither a string nor [null]: it has no callable
    [trim]. *)
Definition notTrimmable (v : jsval) : Prop :=
  match v with
  | Some (JBool _) | Some (JNum _) | Some (JArr _) | Some (JObj _) => True
  | _ => False
  end.

(** A parsed body that is not an object and not [null]. *)
Definition isPrimitiveOrArray (b : json) : Prop :=
  match b with
  | JBool _ | JNum _ | JStr _ | JArr _ => True
  | _ => False
  end.

(** The window start [w'] is [w] or lies more than a window after it. *)
Definition sameOrLaterWindow (w w' : Z) : Prop :=
  w' = w \/ w' > w + RATE_LIMIT_WINDOW_MS.

(** A POST, whatever its address. *)
Definition isPost (e : event) : bool :=
  bool_decide (method (ev_req e) = js "POST").

(** The addresses of the POSTs of a trace. *)
Definition postAddresses (es : list event) : gset JsString.t :=
  list_to_set (List.map (fun e => clientIP (ev_req e)) (List.filter isPost es)).

(** How often a code unit occurs in a string. *)
Definition occurrences (c : N) (s : JsString.t) : nat :=
  List.length (List.filter (N.eqb c) s).

(** ** The contact form (src/components/ContactSection.tsx)

    [handleSubmit] as a function of the form state and of what
    [supabase.functions.invoke] does, to the state the component is left
    in: the form fields, [isSubmitting], the toasts shown and the body
    [invoke] was called with, when it was called. *)

Module ContactForm.

Record formData : Type := mkFormData
  { fd_name : JsString.t; fd_email : JsString.t; fd_message : JsString.t }.

Definition emptyForm : formData := mkFormData [] [] [].

Inductive variant : Type :=
  | DefaultVariant
  | Destructive.

Record toast : Type := mkToast
  { toast_title : string; toast_description : JsString.t;
    toast_variant : variant }.

(** A thrown value as the [catch] reads it: its [message], [None] when the
    value is nullish or has none. *)
Definition thrown : Type := option JsString.t.

(** What the call to [invoke] does: it resolves to [{ data, error }], with
    [error] either [null] or an error object, or it rejects. *)
Inductive invokeResult : Type :=
  | Resolves (data : jsval) (error : option thrown)
  | Rejects (e : thrown).

(** [data?.error] *)
Definition optionalError (data : jsval) : jsval :=
  match data with
  | Some (JObj props) => assoc (js "error") props
  | _ => None
  end.

(** Truthiness of a JSON value or [undefined]. *)
Definition truthy (v : jsval) : bool :=
  match v with
  | None | Some JNull => false
  | Some (JBool b) => b
  | Some (JNum n) => negb (n =? 0)
  | Some (JStr s) => match s with [] => false | _ => true end
  | Some (JArr _) | Some (JObj _) => true
  end.

Definition invalidNameToast : toast :=
  mkToast "Invalid Name" (js "Name must be between 2 and 100 characters.")
    Destructive.

Definition invalidMessageToast : toast :=
  mkToast "Invalid Message"
    (js "Message must be between 10 and 5000 characters.") Destructive.

Definition sentToast : toast :=
  mkToast "Message sent!"
    (js "Thank you for reaching out. I'll get back to you soon!")
    DefaultVariant.

(** [error?.message || "Failed to send message. Please try again."] *)
Definition errorToast (e : thrown) : toast :=
  mkToast "Error"
    match e with
    | Some (c :: s) => c :: s
    | _ => js "Failed to send message. Please try again."
    end
    Destructive.

Record submitResult : Type := mkSubmit
  { form_after : formData; submitting_after : bool;
    shown : list toast; invoked : option row }.

Section Client.

Variable toLowerCase : JsString.t -> JsString.t.

(** [String(v)], the message [new Error(v)] gets, for a value that is not
    a string; the conversion is not part of the repository. *)
Variable toStringOther : json -> JsString.t.

Definition newErrorMessage (v : json) : JsString.t :=
  match v with
  | JStr s => s
  | _ => toStringOther v
  end.

(** The [try] block: [None] when it runs to its end, the thrown value
    otherwise. *)
Definition tryInvoke (net : invokeResult) : option thrown :=
  match net with
  | Rejects e => Some e
  | Resolves _ (Some e) => Some e
  | Resolves data None =>
      if truthy (optionalError data)
      then match optionalError data with
           | Some v => Some (Some (newErrorMessage v))
           | None => None
           end
      else None
  end.

Definition handleSubmit (fd : formData) (net : invokeResult) : submitResult :=
  let trimmedData :=
    mkRow (trim (fd_name fd)) (toLowerCase (trim (fd_email fd)))
      (trim (fd_message fd)) in
  if (len (row_name trimmedData) <? 2) || (len (row_name trimmedData) >? 100)
  then mkSubmit fd false [ invalidNameToast ] None
  else if (len (row_message trimmedData) <? 10)
          || (len (row_message trimmedData) >? 5000)
  then mkSubmit fd false [ invalidMessageToast ] None
  else
    match tryInvoke net with
    | None => mkSubmit emptyForm false [ sentToast ] (Some trimmedData)
    | Some e => mkSubmit fd false [ errorToast e ] (Some trimmedData)
    end.

End Client.

(** The request body [invoke] serializes from [trimmedData]. *)
Definition payloadJson (r : row) : json :=
  JObj [ (js "name", JStr (row_name r)); (js "email", JStr (row_email r));
         (js "message", JStr (row_message r)) ].

End ContactForm.

(** * Properties *)

Implicit Types (now start : Z) (ip : JsString.t) (st : store) (req : request)
  (be : backend) (e : event) (es : list event)
  (name email message : jsval) (v : validation).

(** ** The derivative matcher decides the language *)

Module RegexFacts.

Lemma matches_seq_inv r1 r2 s :
  matches (Seq r1 r2) s ->
  exists s1 s2, s = s1 ++ s2 /\ matches r1 s1 /\ matches r2 s2.
Proof. inversion 1; subst; eauto. Qed.

Lemma matches_alt_inv r1 r2 s :
  matches (Alt r1 r2) s -> matches r1 s \/ matches r2 s.
Proof. inversion 1; subst; auto. Qed.

Lemma nullable_matches r : nullable r = true <-> matches r [].
Proof.
  induction r as [| | p | r1 IH1 r2 IH2 | r1 IH1 r2 IH2 | r IH]; simpl.
  - split; [discriminate | inversion 1].
  - split; [intros _; constructor | reflexivity].
  - split; [discriminate | inversion 1].
  - rewrite andb_true_iff, IH1, IH2. split.
    + intros [H1 H2]. exact (MSeq _ _ [] [] H1 H2).
    + intros H. apply matches_seq_inv in H as (s1 & s2 & E & H1 & H2).
      symmetry in E. apply app_eq_nil in E as [-> ->]. auto.
  - rewrite orb_true_iff, IH1, IH2. split.
    + intros [H | H]; [apply MAltL | apply MAltR]; exact H.
    + apply matches_alt_inv.
  - split; [intros _; constructor | reflexivity].
Qed.

(** A star that reads [c] first spends it inside one iteration. *)
Lemma matches_star_cons r c s :
  matches (Star r) (c :: s) ->
  exists s1 s2, s = s1 ++ s2 /\ matches r (c :: s1) /\ matches (Star r) s2.
Proof.
  intros H. remember (Star r) as r' eqn:Er. remember (c :: s) as w eqn:Ew.
  revert s Ew.
  induction H as [| | | | | | r0 s1 s2 H1 _ H2 IH2]; intros w Ew;
    try discriminate.
  injection Er as ->.
  destruct s1 as [| c1 s1]; simpl in Ew.
  - apply IH2; auto.
  - injection Ew as -> <-. eauto.
Qed.

Lemma deriv_matches c r s : matches (deriv c r) s <-> matches r (c :: s).
Proof.
  revert s.
  induction r as [| | p | r1 IH1 r2 IH2 | r1 IH1 r2 IH2 | r IH];
    intros s; simpl.
  - split; inversion 1.
  - split; inversion 1.
  - destruct (p c) eqn:Hp; split; intros H; inversion H; subst.
    + constructor; exact Hp.
    + constructor.
    + congruence.
  - assert (Hseq : matches (Seq (deriv c r1) r2) s <->
                   exists s1 s2, s = s1 ++ s2 /\ matches r1 (c :: s1)
                                 /\ matches r2 s2).
    { split.
      - intros H. apply matches_seq_inv in H as (s1 & s2 & -> & H1 & H2).
        apply IH1 in H1. eauto.
      - intros (s1 & s2 & -> & H1 & H2). constructor; [apply IH1 |]; auto. }
    destruct (nullable r1) eqn:Hn.
    + split.
      * intros H. apply matches_alt_inv in H as [H | H].
        -- apply Hseq in H as (s1 & s2 & -> & H1 & H2).
           exact (MSeq _ _ (c :: s1) s2 H1 H2).
        -- apply IH2 in H. apply nullable_matches in Hn.
           exact (MSeq _ _ [] (c :: s) Hn H).
      * intros H. apply matches_seq_inv in H as (s1 & s2 & E & H1 & H2).
        destruct s1 as [| c1 s1]; simpl in E.
        -- subst s2. apply MAltR, IH2, H2.
        -- injection E as <- ->. apply MAltL, Hseq. eauto.
    + rewrite Hseq. split.
      * intros (s1 & s2 & -> & H1 & H2). exact (MSeq _ _ (c :: s1) s2 H1 H2).
      * intros H. apply matches_seq_inv in H as (s1 & s2 & E & H1 & H2).
        destruct s1 as [| c1 s1]; simpl in E.
        -- apply nullable_matches in H1. congruence.
        -- injection E as <- ->. eauto.
  - split; intros H.
    + apply matches_alt_inv in H as [H | H];
        [apply MAltL, IH1 | apply MAltR, IH2]; exact H.
    + apply matches_alt_inv in H as [H | H];
        [apply MAltL, IH1 | apply MAltR, IH2]; exact H.
  - split; intros H.
    + apply matches_seq_inv in H as (s1 & s2 & -> & H1 & H2).
      apply IH in H1. exact (MStarApp _ (c :: s1) s2 H1 H2).
    + apply matches_star_cons in H as (s1 & s2 & -> & H1 & H2).
      constructor; [apply IH |]; auto.
Qed.

Lemma test_matches r s : test r s = true <-> matches r s.
Proof.
  revert r. induction s as [| c s IH]; intros r; simpl.
  - apply nullable_matches.
  - rewrite IH. apply deriv_matches.
Qed.

(** The pieces of the e-mail pattern. *)

Lemma matches_class p s : matches (Class p) s <-> exists c, s = [c] /\ p c = true.
Proof.
  split.
  - inversion 1; subst; eauto.
  - intros (c & -> & Hp). constructor; exact Hp.
Qed.

Lemma matches_lit c s : matches (lit c) s <-> s = [c].
Proof.
  unfold lit. rewrite matches_class. split.
  - intros (c' & -> & H). apply N.eqb_eq in H. congruence.
  - intros ->. exists c. split; [reflexivity | apply N.eqb_refl].
Qed.

Lemma matches_star_class p s :
  matches (Star (Class p)) s <-> Forall (fun c => p c = true) s.
Proof.
  split.
  - induction s as [| c s IH]; intros H; constructor.
    + apply matches_star_cons in H as (s1 & s2 & _ & H1 & _).
      inversion H1; subst; assumption.
    + apply matches_star_cons in H as (s1 & s2 & -> & H1 & H2).
      inversion H1; subst. apply IH. exact H2.
  - induction 1 as [| c s Hc _ IH]; [constructor |].
    exact (MStarApp _ [c] s (MClass p c Hc) IH).
Qed.

Lemma matches_plus_class p s :
  matches (plus (Class p)) s <-> s <> [] /\ Forall (fun c => p c = true) s.
Proof.
  unfold plus. split.
  - intros H. apply matches_seq_inv in H as (s1 & s2 & -> & H1 & H2).
    apply matches_class in H1 as (c & -> & Hc).
    apply matches_star_class in H2. split; [discriminate | constructor; auto].
  - intros [Hne H]. destruct s as [| c s]; [congruence |].
    inversion H; subst.
    apply (MSeq _ _ [c] s); [constructor | apply matches_star_class]; auto.
Qed.

Lemma matches_atLeast2_class p s :
  matches (atLeast2 (Class p)) s <->
  (2 <= List.length s)%nat /\ Forall (fun c => p c = true) s.
Proof.
  unfold atLeast2. fold (plus (Class p)). split.
  - intros H. apply matches_seq_inv in H as (s1 & s2 & -> & H1 & H2).
    apply matches_class in H1 as (c & -> & Hc).
    apply matches_plus_class in H2 as [Hne H2].
    destruct s2; [congruence |]. simpl. split; [lia | constructor; auto].
  - intros [Hlen H]. destruct s as [| c s]; [simpl in Hlen; lia |].
    inversion H; subst.
    apply (MSeq _ _ [c] s); [constructor; auto |].
    apply matches_plus_class. split; [| assumption].
    destruct s; [simpl in Hlen; lia | discriminate].
Qed.

Lemma matches_emailRegex s : matches emailRegex s <-> emailShape s.
Proof.
  unfold emailRegex, emailShape. split.
  - intros H.
    apply matches_seq_inv in H as (l & s1 & -> & Hl & H).
    apply matches_seq_inv in H as (a & s2 & -> & Ha & H).
    apply matches_seq_inv in H as (d & s3 & -> & Hd & H).
    apply matches_seq_inv in H as (o & tld & -> & Ho & Ht).
    apply matches_lit in Ha as ->. apply matches_lit in Ho as ->.
    apply matches_plus_class in Hl as [? ?].
    apply matches_plus_class in Hd as [? ?].
    apply matches_atLeast2_class in Ht as [? ?].
    exists l, d, tld. auto 10.
  - intros (l & d & tld & -> & Hl & HlF & Hd & HdF & Ht & HtF).
    repeat apply MSeq.
    + apply matches_plus_class; auto.
    + apply matches_lit; reflexivity.
    + apply matches_plus_class; auto.
    + apply matches_lit; reflexivity.
    + apply matches_atLeast2_class; auto.
Qed.

End RegexFacts.

(** ** The rate limiter *)

Module RateLimitFacts.

Lemma window_ms : RATE_LIMIT_WINDOW_MS = 3600000.
Proof. reflexivity. Qed.

Lemma isRateLimited_opens (now : Z) (ip : JsString.t) (st : store) :
  opensWindow ip now st ->
  isRateLimited now ip st = (false, <[ip := mkRecord 1 now]> st).
Proof.
  unfold opensWindow, isRateLimited. destruct (st !! ip) as [r |]; [| done].
  intros H. destruct (Z.gtb_spec (now - windowStart r) RATE_LIMIT_WINDOW_MS);
    [done | lia].
Qed.

Lemma isRateLimited_within (now : Z) (ip : JsString.t) (st : store) (r : record) :
  st !! ip = Some r ->
  now - windowStart r <= RATE_LIMIT_WINDOW_MS ->
  isRateLimited now ip st =
    if count r >=? MAX_SUBMISSIONS_PER_WINDOW then (true, st)
    else (false, <[ip := mkRecord (count r + 1) (windowStart r)]> st).
Proof.
  unfold isRateLimited. intros -> H.
  destruct (Z.gtb_spec (now - windowStart r) RATE_LIMIT_WINDOW_MS);
    [lia | done].
Qed.

(** The limiter touches the record of its own address only. *)
Lemma isRateLimited_frame (now : Z) (ip ip' : JsString.t) (st : store) :
  ip <> ip' -> snd (isRateLimited now ip st) !! ip' = st !! ip'.
Proof.
  intros Hne. unfold isRateLimited.
  destruct (st !! ip) as [r |]; simpl.
  - destruct (_ >? _); simpl; [by rewrite lookup_insert_ne |].
    destruct (_ >=? _); simpl; [done | by rewrite lookup_insert_ne].
  - by rewrite lookup_insert_ne.
Qed.

End RateLimitFacts.

Import RateLimitFacts.

(** C6: the record of an address is replaced by a fresh one (count 1,
    window starting now) exactly when now is strictly later than
    windowStart + 1 hour, and that submission is let through; at or before
    windowStart + 1 hour the window start is kept and the submission is
    counted in the old window (one more, or refused at the maximum). *)
Theorem C6_window_reset_exact (now : Z) (ip : JsString.t) (st : store)
    (r : record) :
  st !! ip = Some r ->
  (now > windowStart r + 3600000 ->
     isRateLimited now ip st = (false, <[ip := mkRecord 1 now]> st))
  /\ (now <= windowStart r + 3600000 ->
       isRateLimited now ip st =
         if count r >=? 5 then (true, st)
         else (false, <[ip := mkRecord (count r + 1) (windowStart r)]> st))
  /\ (1 <= count r ->
       (snd (isRateLimited now ip st) !! ip = Some (mkRecord 1 now)
        <-> now > windowStart r + 3600000)).
Proof.
  intros Hr.
  assert (Hopen : now > windowStart r + 3600000 ->
                  isRateLimited now ip st = (false, <[ip := mkRecord 1 now]> st)).
  { intros H. apply isRateLimited_opens. unfold opensWindow.
    rewrite Hr, window_ms. lia. }
  assert (Hin : now <= windowStart r + 3600000 ->
                isRateLimited now ip st =
                  if count r >=? 5 then (true, st)
                  else (false, <[ip := mkRecord (count r + 1) (windowStart r)]> st)).
  { intros H. apply isRateLimited_within; [done | rewrite window_ms; lia]. }
  split; [exact Hopen | split; [exact Hin |]].
  intros Hc. split.
  - intros H. destruct (Z_lt_le_dec (windowStart r + 3600000) now) as [| Hle];
      [lia |].
    rewrite (Hin Hle) in H.
    destruct (Z.geb_spec (count r) 5); simpl in H.
    + rewrite Hr in H. injection H as ->. simpl in *. lia.
    + rewrite lookup_insert_eq in H. injection H as H _. lia.
  - intros H. rewrite (Hopen H). simpl. apply lookup_insert_eq.
Qed.

(** ** The validators *)

Module ValidationFacts.

Lemma bind_ret {A B : Type} (m : exn A) (k : A -> exn B) (b : B) :
  bind m k = Ret b -> exists a, m = Ret a /\ k a = Ret b.
Proof. destruct m; simpl; [eauto | discriminate]. Qed.

Lemma len_nonneg (s : JsString.t) : 0 <= len s.
Proof. unfold len. lia. Qed.

Lemma len_nil_iff (s : JsString.t) : len s = 0 <-> s = [].
Proof. unfold len. destruct s; simpl; split; (discriminate || lia || auto). Qed.

Lemma validateName_answers name v :
  validateName name = Ret v -> answers nameErrors v.
Proof.
  unfold validateName, answers, nameErrors, invalid.
  intros H. apply bind_ret in H as (t & _ & [= <-]).
  destruct t as [[| c t] |]; [| | ]; try (right; eexists; split; [reflexivity | simpl; tauto]).
  destruct (_ <? _); [right; eexists; split; [reflexivity | simpl; tauto] |].
  destruct (_ >? _); [right; eexists; split; [reflexivity | simpl; tauto] |].
  by left.
Qed.

Lemma validateMessage_answers message v :
  validateMessage message = Ret v -> answers messageErrors v.
Proof.
  unfold validateMessage, answers, messageErrors, invalid.
  intros H. apply bind_ret in H as (t & _ & [= <-]).
  destruct t as [[| c t] |]; [| | ]; try (right; eexists; split; [reflexivity | simpl; tauto]).
  destruct (_ <? _); [right; eexists; split; [reflexivity | simpl; tauto] |].
  destruct (_ >? _); [right; eexists; split; [reflexivity | simpl; tauto] |].
  by left.
Qed.

(** On a string, [validateName] is the bounds check on the trimmed length. *)
Lemma validateName_string (n : JsString.t) :
  validateName (Some (JStr n)) =
    Ret (if len (trim n) =? 0 then invalid "Name is required"
         else if len (trim n) <? 2
         then invalid "Name must be at least 2 characters"
         else if len (trim n) >? 100
         then invalid "Name must be less than 100 characters"
         else ok).
Proof.
  unfold validateName. simpl. destruct (trim n) as [| c t] eqn:E; [done |].
  replace (len (c :: t) =? 0) with false; [done |].
  symmetry. apply Z.eqb_neq. unfold len. simpl. lia.
Qed.

Lemma validateMessage_string (m : JsString.t) :
  validateMessage (Some (JStr m)) =
    Ret (if len (trim m) =? 0 then invalid "Message is required"
         else if len (trim m) <? 10
         then invalid "Message must be at least 10 characters"
         else if len (trim m) >? 5000
         then invalid "Message must be less than 5000 characters"
         else ok).
Proof.
  unfold validateMessage. simpl. destruct (trim m) as [| c t] eqn:E; [done |].
  replace (len (c :: t) =? 0) with false; [done |].
  symmetry. apply Z.eqb_neq. unfold len. simpl. lia.
Qed.

Lemma validateName_missing name :
  name = None \/ name = Some JNull ->
  validateName name = Ret (invalid "Name is required").
Proof. by intros [-> | ->]. Qed.

Section Email.

Variable toLowerCase : JsString.t -> JsString.t.

Lemma validateEmail_answers email v :
  validateEmail toLowerCase email = Ret v -> answers emailErrors v.
Proof.
  unfold validateEmail, answers, emailErrors, invalid.
  intros H. apply bind_ret in H as (t & _ & [= <-]).
  destruct t as [[| c t] |]; [| | ]; try (right; eexists; split; [reflexivity | simpl; tauto]).
  destruct (_ >? _); [right; eexists; split; [reflexivity | simpl; tauto] |].
  destruct (negb _); [right; eexists; split; [reflexivity | simpl; tauto] |].
  by left.
Qed.

Lemma validateEmail_string (e : JsString.t) :
  validateEmail toLowerCase (Some (JStr e)) =
    Ret (let t := toLowerCase (trim e) in
         if len t =? 0 then invalid "Email is required"
         else if len t >? 255
         then invalid "Email must be less than 255 characters"
         else if negb (test emailRegex t)
         then invalid "Please enter a valid email address"
         else ok).
Proof.
  unfold validateEmail. simpl.
  destruct (toLowerCase (trim e)) as [| c t] eqn:E; [done |].
  replace (len (c :: t) =? 0) with false; [done |].
  symmetry. apply Z.eqb_neq. unfold len. simpl. lia.
Qed.

End Email.

End ValidationFacts.

Import ValidationFacts.

(** ** The handler, path by path *)

Section HandlerFacts.

Variable toLowerCase : JsString.t -> JsString.t.

Lemma handler_options now req be (st : store) :
  method req = js "OPTIONS" ->
  handler toLowerCase now req be st =
    (st, respond (mkResponse 200 corsHeaders (Text (js "ok")))).
Proof. intros H. unfold handler. by rewrite bool_decide_eq_true_2. Qed.

Lemma handler_other_method now req be (st : store) :
  method req <> js "OPTIONS" -> method req <> js "POST" ->
  handler toLowerCase now req be st =
    (st, respond (errorResponse 405 "Method not allowed")).
Proof.
  intros H1 H2. unfold handler, tryBlock.
  by rewrite !bool_decide_eq_false_2.
Qed.

(** A POST goes through the gate; what follows cannot touch the store. *)
Lemma handler_post now req be (st : store) :
  method req = js "POST" ->
  handler toLowerCase now req be st =
    (snd (isRateLimited now (clientIP req) st),
     if fst (isRateLimited now (clientIP req) st)
     then respond tooManyRequests
     else caught (process toLowerCase req be)).
Proof.
  intros H. unfold handler, tryBlock. rewrite H.
  rewrite bool_decide_eq_false_2 by (vm_compute; discriminate).
  rewrite bool_decide_eq_true_2 by reflexivity. simpl.
  destruct (isRateLimited now (clientIP req) st) as [[|] st']; simpl; [done |].
  by destruct (process toLowerCase req be).
Qed.

Lemma insertStep_shape be name email message (r : result) :
  insertStep toLowerCase be name email message = Ret r ->
  (be = InsertSucceeds /\ resp r = successResponse
   \/ be = InsertFails
      /\ resp r = errorResponse 500 "Failed to submit message. Please try again.")
  /\ exists sn se sm : JsString.t,
      name = Some (JStr sn) /\ email = Some (JStr se)
      /\ message = Some (JStr sm)
      /\ insertCall r
         = Some (mkRow (trim sn) (toLowerCase (trim se)) (trim sm)).
Proof.
  unfold insertStep. intros H.
  destruct be; [discriminate | |];
    apply bind_ret in H as (sn & Hn & H);
    apply bind_ret in H as (se & He & H);
    apply bind_ret in H as (sm & Hm & [= <-]);
    unfold callTrim in *;
    destruct name as [[]|]; try discriminate;
    destruct email as [[]|]; try discriminate;
    destruct message as [[]|]; try discriminate;
    injection Hn as <-; injection He as <-; injection Hm as <-;
    (split; [auto | eauto 10]).
Qed.

(** Every response produced after the gate is a 400 of one validator, the
    500 of a failed insert, or the 200. *)
Lemma process_shape req be (r : result) :
  process toLowerCase req be = Ret r ->
  (exists msg, resp r = mkResponse 400 jsonHeaders (stringifyError (Some msg))
               /\ In msg (nameErrors ++ emailErrors ++ messageErrors)
               /\ insertCall r = None)
  \/ resp r = errorResponse 500 "Failed to submit message. Please try again."
  \/ resp r = successResponse.
Proof.
  unfold process. intros H.
  apply bind_ret in H as (body & _ & H).
  apply bind_ret in H as (name & _ & H).
  apply bind_ret in H as (email & _ & H).
  apply bind_ret in H as (message & _ & H).
  apply bind_ret in H as (nv & Hnv & H).
  apply validateName_answers in Hnv as [-> | (msg & -> & Hin)]; simpl in H.
  2: { injection H as <-. left. exists msg. rewrite !in_app_iff. auto. }
  apply bind_ret in H as (ev & Hev & H).
  apply validateEmail_answers in Hev as [-> | (msg & -> & Hin)]; simpl in H.
  2: { injection H as <-. left. exists msg. rewrite !in_app_iff. auto. }
  apply bind_ret in H as (mv & Hmv & H).
  apply validateMessage_answers in Hmv as [-> | (msg & -> & Hin)]; simpl in H.
  2: { injection H as <-. left. exists msg. rewrite !in_app_iff. auto. }
  apply insertStep_shape in H as [[[_ ->] | [_ ->]] _]; auto.
Qed.

Lemma caught_admitted req be :
  admitted (caught (process toLowerCase req be)) = true.
Proof.
  destruct (process toLowerCase req be) as [r |] eqn:H; [| done].
  unfold admitted, caught.
  apply process_shape in H as [(msg & Hr & _) | [Hr | Hr]]; by rewrite Hr.
Qed.

(** The store after a request: the gate's, for a POST; untouched otherwise. *)
Lemma handler_store now req be (st : store) :
  fst (handler toLowerCase now req be st) =
    if bool_decide (method req = js "POST")
    then snd (isRateLimited now (clientIP req) st)
    else st.
Proof.
  case_bool_decide as Hp; [by rewrite handler_post |].
  destruct (decide (method req = js "OPTIONS")) as [Ho | Ho].
  - by rewrite handler_options.
  - by rewrite handler_other_method.
Qed.

Lemma serve_frame ip (st : store) e :
  isPostFrom ip e = false -> fst (serve toLowerCase st e) !! ip = st !! ip.
Proof.
  unfold isPostFrom, serve. intros H. rewrite handler_store.
  case_bool_decide as Hp; [| done]. simpl in H.
  apply bool_decide_eq_false in H. by apply isRateLimited_frame.
Qed.

(** A POST from [ip] inside the window of its record. *)
Lemma serve_within ip (st : store) e (c : Z) start :
  isPostFrom ip e = true ->
  st !! ip = Some (mkRecord c start) ->
  ev_now e - start <= RATE_LIMIT_WINDOW_MS ->
  serve toLowerCase st e =
    if c >=? 5 then (st, respond tooManyRequests)
    else (<[ip := mkRecord (c + 1) start]> st,
          caught (process toLowerCase (ev_req e) (ev_backend e))).
Proof.
  unfold isPostFrom, serve. intros H Hr Hw.
  apply andb_true_iff in H as [Hp Hip].
  apply bool_decide_eq_true in Hp, Hip.
  rewrite handler_post by done. rewrite Hip.
  rewrite (isRateLimited_within _ _ _ _ Hr) by done. simpl.
  unfold MAX_SUBMISSIONS_PER_WINDOW. by destruct (c >=? 5).
Qed.

(** A POST from [ip] that starts a window. *)
Lemma serve_opens ip (st : store) e :
  isPostFrom ip e = true ->
  opensWindow ip (ev_now e) st ->
  serve toLowerCase st e =
    (<[ip := mkRecord 1 (ev_now e)]> st,
     caught (process toLowerCase (ev_req e) (ev_backend e))).
Proof.
  unfold isPostFrom, serve. intros H Ho.
  apply andb_true_iff in H as [Hp Hip].
  apply bool_decide_eq_true in Hp, Hip.
  rewrite handler_post by done. rewrite Hip.
  by rewrite (isRateLimited_opens _ _ _ Ho).
Qed.

End HandlerFacts.

(** ** One window of one address *)

Section WindowFacts.

Variable toLowerCase : JsString.t -> JsString.t.

Lemma run_cons st e es :
  run toLowerCase st (e :: es) =
    (fst (run toLowerCase (fst (serve toLowerCase st e)) es),
     (e, snd (serve toLowerCase st e))
       :: snd (run toLowerCase (fst (serve toLowerCase st e)) es)).
Proof.
  simpl. destruct (serve toLowerCase st e) as [st1 r]. simpl.
  by destruct (run toLowerCase st1 es).
Qed.

Lemma admittedFrom_cons ip e (r : result) log :
  admittedFrom ip ((e, r) :: log) =
    ((if isPostFrom ip e && admitted r then 1 else 0) + admittedFrom ip log)%nat.
Proof. unfold admittedFrom. simpl. by destruct (_ && _). Qed.

Lemma submissions_cons ip e es :
  submissions ip (e :: es) =
    ((if isPostFrom ip e then 1 else 0) + submissions ip es)%nat.
Proof. unfold submissions. simpl. by destruct (isPostFrom ip e). Qed.

(** While every POST from [ip] arrives inside the window of its record, the
    count climbs to the maximum and stays there, and exactly the climbing
    submissions get past the gate. *)
Lemma run_window ip start es :
  forall st (c : Z),
    st !! ip = Some (mkRecord c start) ->
    c <= 5 ->
    Forall (withinWindow ip start) es ->
    fst (run toLowerCase st es) !! ip
      = Some (mkRecord (Z.min 5 (c + Z.of_nat (submissions ip es))) start)
    /\ Z.of_nat (admittedFrom ip (snd (run toLowerCase st es)))
       = Z.min 5 (c + Z.of_nat (submissions ip es)) - c.
Proof.
  induction es as [| e es IH]; intros st c Hr Hc Hw.
  - simpl. rewrite Hr. unfold submissions, admittedFrom. simpl.
    split; [f_equal; f_equal |]; lia.
  - inversion Hw as [| ? ? He Hes]; subst.
    rewrite run_cons. cbn [fst snd].
    rewrite admittedFrom_cons, submissions_cons.
    destruct (isPostFrom ip e) eqn:Hp.
    + rewrite (serve_within toLowerCase ip st e c start Hp Hr (He Hp)).
      destruct (Z.geb_spec c 5) as [Hge | Hlt]; simpl.
      * destruct (IH st c Hr Hc Hes) as [IH1 IH2].
        rewrite IH1, IH2. split; [f_equal; f_equal |]; lia.
      * rewrite caught_admitted. simpl.
        destruct (IH (<[ip := mkRecord (c + 1) start]> st) (c + 1)) as [IH1 IH2];
          [apply lookup_insert_eq | lia | done |].
        rewrite IH1. split; [f_equal; f_equal |]; lia.
    + simpl. apply IH; [| done | done].
      by rewrite serve_frame.
Qed.

(** Submissions from [ip] alone, as long as the budget lasts: each one gets
    the response the validation sequence and the insert give it, and each
    one is counted. *)
Lemma run_counted ip start es :
  forall st (c : Z),
    st !! ip = Some (mkRecord c start) ->
    c + Z.of_nat (List.length es) <= 5 ->
    Forall (fun e => isPostFrom ip e = true
                     /\ ev_now e - start <= RATE_LIMIT_WINDOW_MS) es ->
    fst (run toLowerCase st es) !! ip
      = Some (mkRecord (c + Z.of_nat (List.length es)) start)
    /\ Forall (fun er => snd er = caught (process toLowerCase (ev_req (fst er))
                                           (ev_backend (fst er))))
         (snd (run toLowerCase st es)).
Proof.
  induction es as [| e es IH]; intros st c Hr Hc Hw.
  - simpl. rewrite Hr. split; [f_equal; f_equal; lia | constructor].
  - inversion Hw as [| ? ? [Hp He] Hes]; subst.
    rewrite run_cons. simpl List.length in *. cbn [fst snd].
    rewrite (serve_within toLowerCase ip st e c start Hp Hr He).
    destruct (Z.geb_spec c 5) as [Hge | Hlt]; [lia |]. simpl.
    destruct (IH (<[ip := mkRecord (c + 1) start]> st) (c + 1)) as [IH1 IH2];
      [apply lookup_insert_eq | lia | done |].
    rewrite IH1. split; [f_equal; f_equal | by constructor].
    rewrite Nat2Z.inj_succ. lia.
Qed.

Lemma admittedHeaderless_le (log : list (event * result)) :
  (forall req, headerless req = true -> clientIP req = js "unknown") ->
  (admittedHeaderless log <= admittedFrom (js "unknown") log)%nat.
Proof.
  intros Hk. unfold admittedHeaderless, admittedFrom, isPostFrom.
  induction log as [| [e r] log IH]; simpl; [lia |].
  destruct (bool_decide (method (ev_req e) = js "POST")); simpl;
    [| exact IH].
  destruct (headerless (ev_req e)) eqn:Hh; simpl.
  - rewrite (Hk _ Hh). rewrite bool_decide_eq_true_2 by done. simpl.
    destruct (admitted r); simpl; lia.
  - destruct (_ && _); simpl; lia.
Qed.

End WindowFacts.

(** ** The claims about the rate limit *)

Section RateLimitClaims.

Variable toLowerCase : JsString.t -> JsString.t.

(** From the submission that starts a window of [ip] on, and as long as the
    POSTs from [ip] arrive inside that window: the record of [ip] counts
    them up to the maximum, that many get past the gate, and past the
    maximum a POST from [ip] is answered 429 with the store left as it is. *)
Lemma window_opened ip st e1 es :
  isPostFrom ip e1 = true ->
  opensWindow ip (ev_now e1) st ->
  Forall (withinWindow ip (ev_now e1)) es ->
  fst (run toLowerCase st (e1 :: es)) !! ip
    = Some (mkRecord (Z.min 5 (1 + Z.of_nat (submissions ip es))) (ev_now e1))
  /\ admittedFrom ip (snd (run toLowerCase st (e1 :: es)))
     = Nat.min 5 (S (submissions ip es)).
Proof.
  intros Hp Ho Hw. rewrite run_cons. cbn [fst snd].
  rewrite admittedFrom_cons, (serve_opens toLowerCase ip st e1 Hp Ho).
  cbn [fst snd]. rewrite Hp, caught_admitted. simpl andb. cbv iota.
  destruct (run_window toLowerCase ip (ev_now e1) es
              (<[ip := mkRecord 1 (ev_now e1)]> st) 1) as [H1 H2];
    [apply lookup_insert_eq | lia | done |].
  split; [exact H1 | lia].
Qed.

Lemma limit_reached ip st e (start : Z) :
  st !! ip = Some (mkRecord 5 start) ->
  isPostFrom ip e = true ->
  ev_now e - start <= 3600000 ->
  serve toLowerCase st e = (st, respond tooManyRequests).
Proof.
  intros Hr Hp Hw.
  by rewrite (serve_within toLowerCase ip st e 5 start Hp Hr Hw).
Qed.

(** C2: for every source address, counting from the submission that starts
    its window and while its POSTs fall inside that window (one hour from
    the window start), exactly min(5, number of POSTs) get past the rate
    limiter, so at most 5; and once five have been made, a further POST
    from that address inside the window is answered 429 "Too many
    submissions", whatever its body and backend, with no insert call and
    the store unchanged. *)
Theorem C2_sixth_submission_rejected ip st e1 es e6 :
  isPostFrom ip e1 = true ->
  opensWindow ip (ev_now e1) st ->
  Forall (withinWindow ip (ev_now e1)) es ->
  (4 <= submissions ip es)%nat ->
  isPostFrom ip e6 = true ->
  ev_now e6 - ev_now e1 <= 3600000 ->
  admittedFrom ip (snd (run toLowerCase st (e1 :: es))) = 5%nat
  /\ serve toLowerCase (fst (run toLowerCase st (e1 :: es))) e6
     = (fst (run toLowerCase st (e1 :: es)),
        mkResult tooManyRequests None)
  /\ status tooManyRequests = 429
  /\ (forall es', Forall (withinWindow ip (ev_now e1)) es' ->
        (admittedFrom ip (snd (run toLowerCase st (e1 :: es'))) <= 5)%nat).
Proof.
  intros Hp Ho Hw Hn Hp6 Hw6.
  destruct (window_opened ip st e1 es Hp Ho Hw) as [Hr Ha].
  replace (Z.min 5 (1 + Z.of_nat (submissions ip es))) with 5 in Hr by lia.
  split; [lia |]. split; [exact (limit_reached ip _ e6 _ Hr Hp6 Hw6) |].
  split; [reflexivity |].
  intros es' Hw'. destruct (window_opened ip st e1 es' Hp Ho Hw') as [_ ->]. lia.
Qed.

(** C9: a POST that gets past the rate limiter leaves the store exactly as
    the limiter left it, whatever its body and whatever the backend does,
    so the unit it took is spent; accordingly five POSTs from one address
    that start and stay inside one window each get the answer of the
    validation sequence (a 400 when validation rejects them) and bring the
    count to 5, and a sixth POST from that address inside the window is
    answered 429 even when it is fully valid. *)
Theorem C9_rejected_submissions_consume_budget ip st e1 es e6 :
  isPostFrom ip e1 = true ->
  opensWindow ip (ev_now e1) st ->
  List.length es = 4%nat ->
  Forall (fun e => isPostFrom ip e = true
                   /\ ev_now e - ev_now e1 <= RATE_LIMIT_WINDOW_MS) es ->
  isPostFrom ip e6 = true ->
  ev_now e6 - ev_now e1 <= RATE_LIMIT_WINDOW_MS ->
  (forall now req be st0,
     method req = js "POST" ->
     fst (isRateLimited now (clientIP req) st0) = false ->
     handler toLowerCase now req be st0
       = (snd (isRateLimited now (clientIP req) st0),
          caught (process toLowerCase req be)))
  /\ Forall (fun er => snd er = caught (process toLowerCase (ev_req (fst er))
                                          (ev_backend (fst er))))
       (snd (run toLowerCase st (e1 :: es)))
  /\ fst (run toLowerCase st (e1 :: es)) !! ip = Some (mkRecord 5 (ev_now e1))
  /\ serve toLowerCase (fst (run toLowerCase st (e1 :: es))) e6
     = (fst (run toLowerCase st (e1 :: es)), respond tooManyRequests).
Proof.
  intros Hp Ho Hlen Hes Hp6 Hw6.
  split.
  { intros now req be st0 Hm Hrl. rewrite handler_post by done. by rewrite Hrl. }
  rewrite run_cons. cbn [fst snd].
  rewrite (serve_opens toLowerCase ip st e1 Hp Ho). cbn [fst snd].
  destruct (run_counted toLowerCase ip (ev_now e1) es
              (<[ip := mkRecord 1 (ev_now e1)]> st) 1) as [H1 H2];
    [apply lookup_insert_eq | lia | done |].
  rewrite Hlen in H1. change (1 + Z.of_nat 4) with 5 in H1.
  split; [by constructor |]. split; [exact H1 |].
  exact (limit_reached ip _ e6 _ H1 Hp6 Hw6).
Qed.

(** C10: a request with neither x-forwarded-for nor cf-connecting-ip is
    keyed by "unknown"; so from the POST that starts the window of
    "unknown" on, and while the POSTs keyed by "unknown" fall inside that
    window, at most 5 headerless POSTs get past the rate limiter, however
    many there are and whoever sent them. *)
Theorem C10_headerless_share_unknown_bucket st e1 es :
  isPostFrom (js "unknown") e1 = true ->
  opensWindow (js "unknown") (ev_now e1) st ->
  Forall (withinWindow (js "unknown") (ev_now e1)) es ->
  (forall req, headerless req = true -> clientIP req = js "unknown")
  /\ (admittedHeaderless (snd (run toLowerCase st (e1 :: es))) <= 5)%nat.
Proof.
  intros Hp Ho Hw.
  assert (Hk : forall req, headerless req = true -> clientIP req = js "unknown").
  { intros [m [x |] [y |] b]; unfold headerless; simpl; try discriminate.
    reflexivity. }
  split; [exact Hk |].
  etransitivity; [apply admittedHeaderless_le, Hk |].
  destruct (window_opened (js "unknown") st e1 es Hp Ho Hw) as [_ ->]. lia.
Qed.

End RateLimitClaims.

(** ** The claims about validation, persistence and responses *)

Section ValidationClaims.

Variable toLowerCase : JsString.t -> JsString.t.

Lemma validateName_ok (n : JsString.t) :
  validateName (Some (JStr n)) = Ret ok <-> 2 <= len (trim n) <= 100.
Proof.
  rewrite validateName_string. pose proof (len_nonneg (trim n)).
  destruct (Z.eqb_spec (len (trim n)) 0); [split; [discriminate | lia] |].
  destruct (Z.ltb_spec (len (trim n)) 2); [split; [discriminate | lia] |].
  destruct (Z.gtb_spec (len (trim n)) 100); [split; [discriminate | lia] |].
  split; [lia | done].
Qed.

Lemma validateMessage_ok (m : JsString.t) :
  validateMessage (Some (JStr m)) = Ret ok <-> 10 <= len (trim m) <= 5000.
Proof.
  rewrite validateMessage_string. pose proof (len_nonneg (trim m)).
  destruct (Z.eqb_spec (len (trim m)) 0); [split; [discriminate | lia] |].
  destruct (Z.ltb_spec (len (trim m)) 10); [split; [discriminate | lia] |].
  destruct (Z.gtb_spec (len (trim m)) 5000); [split; [discriminate | lia] |].
  split; [lia | done].
Qed.

Lemma emailShape_nonempty (s : JsString.t) : emailShape s -> s <> [].
Proof. intros (l & d & tld & -> & _). by destruct l. Qed.

Lemma test_emailRegex (s : JsString.t) : test emailRegex s = true <-> emailShape s.
Proof.
  rewrite RegexFacts.test_matches. apply RegexFacts.matches_emailRegex.
Qed.

Lemma validateEmail_ok (e : JsString.t) :
  validateEmail toLowerCase (Some (JStr e)) = Ret ok <->
  toLowerCase (trim e) <> []
  /\ len (toLowerCase (trim e)) <= 255
  /\ emailShape (toLowerCase (trim e)).
Proof.
  rewrite validateEmail_string. cbv zeta.
  set (t := toLowerCase (trim e)). pose proof (len_nil_iff t) as Hnil.
  rewrite <- test_emailRegex.
  destruct (Z.eqb_spec (len t) 0) as [H0 | H0].
  { split; [discriminate | intros [Hne _]; tauto]. }
  destruct (Z.gtb_spec (len t) 255); [split; [discriminate | lia] |].
  destruct (test emailRegex t); simpl.
  - split; [intros _; repeat split; [tauto | lia] | done].
  - split; [discriminate | intros (_ & _ & ?); discriminate].
Qed.

(** Once the body is parsed and the three fields are bound, what is left
    of [process] is the validation sequence and the insert. *)
Lemma process_bound req be body name email message :
  reqJson req = Ret body ->
  getProp body (js "name") = Ret name ->
  getProp body (js "email") = Ret email ->
  getProp body (js "message") = Ret message ->
  process toLowerCase req be =
    (let* nameValidation := validateName name in
     if negb (valid nameValidation)
     then Ret (respond (validationResponse nameValidation))
     else
       let* emailValidation := validateEmail toLowerCase email in
       if negb (valid emailValidation)
       then Ret (respond (validationResponse emailValidation))
       else
         let* messageValidation := validateMessage message in
         if negb (valid messageValidation)
         then Ret (respond (validationResponse messageValidation))
         else insertStep toLowerCase be name email message).
Proof.
  unfold process. intros Hb Hn He Hm.
  rewrite Hb. cbn [bind]. rewrite Hn. cbn [bind].
  rewrite He. cbn [bind]. by rewrite Hm.
Qed.

Lemma handler_reaches now req be st name email message :
  reachesValidation now req st name email message ->
  snd (handler toLowerCase now req be st) =
    caught
      (let* nameValidation := validateName name in
       if negb (valid nameValidation)
       then Ret (respond (validationResponse nameValidation))
       else
         let* emailValidation := validateEmail toLowerCase email in
         if negb (valid emailValidation)
         then Ret (respond (validationResponse emailValidation))
         else
           let* messageValidation := validateMessage message in
           if negb (valid messageValidation)
           then Ret (respond (validationResponse messageValidation))
           else insertStep toLowerCase be name email message).
Proof.
  intros (Hm & Hrl & body & Hb & Hn & He & Hmsg).
  rewrite handler_post by done. cbn [snd]. rewrite Hrl.
  by rewrite (process_bound req be body name email message).
Qed.

(** An insert is only ever called on a POST whose three fields passed
    their validators, and with the normalized fields. *)
Lemma insert_only_validated now req be st (r : row) :
  insertCall (snd (handler toLowerCase now req be st)) = Some r ->
  exists body (n e m : JsString.t),
    reqJson req = Ret body
    /\ getProp body (js "name") = Ret (Some (JStr n))
    /\ getProp body (js "email") = Ret (Some (JStr e))
    /\ getProp body (js "message") = Ret (Some (JStr m))
    /\ validateName (Some (JStr n)) = Ret ok
    /\ validateEmail toLowerCase (Some (JStr e)) = Ret ok
    /\ validateMessage (Some (JStr m)) = Ret ok
    /\ r = mkRow (trim n) (toLowerCase (trim e)) (trim m).
Proof.
  destruct (decide (method req = js "POST")) as [Hp | Hp].
  2: { destruct (decide (method req = js "OPTIONS")) as [Ho | Ho];
       [rewrite handler_options by done | rewrite handler_other_method by done];
       discriminate. }
  rewrite handler_post by done. cbn [snd].
  destruct (fst (isRateLimited now (clientIP req) st)); [discriminate |].
  unfold process.
  destruct (reqJson req) as [body |] eqn:Hb; [| discriminate]. cbn [bind].
  destruct (getProp body (js "name")) as [name |] eqn:Hn; [| discriminate].
  cbn [bind].
  destruct (getProp body (js "email")) as [email |] eqn:He; [| discriminate].
  cbn [bind].
  destruct (getProp body (js "message")) as [message |] eqn:Hm;
    [| discriminate].
  cbn [bind].
  destruct (validateName name) as [nv |] eqn:Hnv; [| discriminate].
  destruct (validateName_answers _ _ Hnv) as [-> | (? & -> & _)];
    [| discriminate].
  cbn [bind valid ok negb].
  destruct (validateEmail toLowerCase email) as [ev |] eqn:Hev; [| discriminate].
  destruct (validateEmail_answers _ _ _ Hev) as [-> | (? & -> & _)];
    [| discriminate].
  cbn [bind valid ok negb].
  destruct (validateMessage message) as [mv |] eqn:Hmv; [| discriminate].
  destruct (validateMessage_answers _ _ Hmv) as [-> | (? & -> & _)];
    [| discriminate].
  cbn [bind valid ok negb].
  destruct (insertStep toLowerCase be name email message) as [res |] eqn:Hi;
    [| discriminate].
  cbn [caught]. intros Hr.
  apply insertStep_shape in Hi as [_ (n & e & m & -> & -> & -> & Hrow)].
  exists body, n, e, m. rewrite Hrow in Hr. injection Hr as <-.
  repeat split; done.
Qed.

(** On ASCII strings [toLowerCase] maps [A-Z] to [a-z] and keeps the rest. *)
Hypothesis toLowerCase_ascii :
  forall s : JsString.t, Forall isAscii s -> toLowerCase s = asciiLower s.

Lemma fresh_store_admits now ip : fst (isRateLimited now ip ∅) = false.
Proof. unfold isRateLimited. by rewrite lookup_empty. Qed.

(** C1: a POST that gets past the rate limiter, whose name has trimmed
    length in [2,100], whose trimmed and lowercased email has the valid
    shape and at most 255 code units, whose message has trimmed length in
    [10,5000], and whose insert succeeds, has the normalized row (trimmed
    name, trimmed and lowercased email, trimmed message) handed to the
    insert and is answered 200 with success true and "Message sent
    successfully"; the input Al, A@B.COM, Hello there! is stored as
    Al, a@b.com, Hello there!. *)
Theorem C1_valid_submission_persisted now req st (n e m : JsString.t) :
  reachesValidation now req st (Some (JStr n)) (Some (JStr e)) (Some (JStr m)) ->
  2 <= len (trim n) <= 100 ->
  emailShape (toLowerCase (trim e)) ->
  len (toLowerCase (trim e)) <= 255 ->
  10 <= len (trim m) <= 5000 ->
  snd (handler toLowerCase now req InsertSucceeds st)
    = mkResult
        (mkResponse 200 jsonHeaders
           (Stringify
              (JObj [ (js "success", JBool true);
                      (js "message", JStr (js "Message sent successfully")) ])))
        (Some (mkRow (trim n) (toLowerCase (trim e)) (trim m)))
  /\ snd (handler toLowerCase now
            (postJson (contactBody "Al" "A@B.COM" (JStr (js "Hello there!"))))
            InsertSucceeds ∅)
     = mkResult successResponse
         (Some (mkRow (js "Al") (js "a@b.com") (js "Hello there!"))).
Proof.
  assert (Hgen : forall now req st (n e m : JsString.t),
             reachesValidation now req st (Some (JStr n)) (Some (JStr e))
               (Some (JStr m)) ->
             2 <= len (trim n) <= 100 ->
             emailShape (toLowerCase (trim e)) ->
             len (toLowerCase (trim e)) <= 255 ->
             10 <= len (trim m) <= 5000 ->
             snd (handler toLowerCase now req InsertSucceeds st)
               = mkResult successResponse
                   (Some (mkRow (trim n) (toLowerCase (trim e)) (trim m)))).
  { clear. intros now req st n e m Hreach Hn He Hlen Hm.
    rewrite (handler_reaches _ _ _ _ _ _ _ Hreach).
    apply validateName_ok in Hn. rewrite Hn. cbn [bind valid ok negb].
    assert (Hev : validateEmail toLowerCase (Some (JStr e)) = Ret ok).
    { apply validateEmail_ok. auto using emailShape_nonempty. }
    rewrite Hev. cbn [bind valid ok negb].
    apply validateMessage_ok in Hm. rewrite Hm. reflexivity. }
  intros Hreach Hn He Hlen Hm. split; [by apply Hgen |].
  assert (Hlow : toLowerCase (trim (js "A@B.COM")) = js "a@b.com").
  { change (trim (js "A@B.COM")) with (js "A@B.COM").
    rewrite toLowerCase_ascii; [reflexivity |].
    repeat constructor. }
  rewrite (Hgen now _ ∅ (js "Al") (js "A@B.COM") (js "Hello there!")).
  - by rewrite Hlow.
  - split; [reflexivity |]. split; [apply fresh_store_admits |].
    eexists. repeat split; reflexivity.
  - by vm_compute.
  - rewrite Hlow. apply test_emailRegex. reflexivity.
  - rewrite Hlow. by vm_compute.
  - by vm_compute.
Qed.

Lemma errors_distinct : NoDup (nameErrors ++ emailErrors ++ messageErrors).
Proof. apply (bool_decide_unpack _). by vm_compute. Qed.

Lemma rejected_answer (msgs : list JsString.t) v :
  answers msgs v -> valid v = false ->
  exists msg, In msg msgs /\ v = mkValidation false (Some msg).
Proof. intros [-> | (msg & -> & Hin)] Hv; [discriminate | eauto]. Qed.

(** C3: on a request that gets to the validation sequence, a failing name
    decides the response whatever the email and the message are; with a
    valid name a failing email decides it whatever the message is; with a
    valid name and email a failing message decides it.  Each response is a
    400 carrying one message of the failing validator, the nine messages
    are pairwise different, and nothing is inserted.  For name A, email
    x@y.com and any message value at all, the answer is "Name must be at
    least 2 characters". *)
Theorem C3_first_failure_reported now req be st name email message v :
  reachesValidation now req st name email message ->
  valid v = false ->
  (validateName name = Ret v ->
     exists msg, In msg nameErrors
       /\ snd (handler toLowerCase now req be st)
          = mkResult (mkResponse 400 jsonHeaders (stringifyError (Some msg)))
              None)
  /\ (validateName name = Ret ok ->
      validateEmail toLowerCase email = Ret v ->
      exists msg, In msg emailErrors
        /\ snd (handler toLowerCase now req be st)
           = mkResult (mkResponse 400 jsonHeaders (stringifyError (Some msg)))
               None)
  /\ (validateName name = Ret ok ->
      validateEmail toLowerCase email = Ret ok ->
      validateMessage message = Ret v ->
      exists msg, In msg messageErrors
        /\ snd (handler toLowerCase now req be st)
           = mkResult (mkResponse 400 jsonHeaders (stringifyError (Some msg)))
               None)
  /\ NoDup (nameErrors ++ emailErrors ++ messageErrors)
  /\ (forall (anyMessage : json) now' be',
        snd (handler toLowerCase now'
               (postJson (contactBody "A" "x@y.com" anyMessage)) be' ∅)
        = mkResult (errorResponse 400 "Name must be at least 2 characters")
            None).
Proof.
  intros Hreach Hv.
  rewrite (handler_reaches _ _ _ _ _ _ _ Hreach).
  split; [| split; [| split; [| split; [exact errors_distinct |]]]].
  - intros Hn. rewrite Hn. cbn [bind]. rewrite Hv. cbn [negb caught].
    destruct (rejected_answer _ _ (validateName_answers _ _ Hn) Hv)
      as (msg & Hin & ->). eauto.
  - intros Hn He. rewrite Hn. cbn [bind valid ok negb].
    rewrite He. cbn [bind]. rewrite Hv. cbn [negb caught].
    destruct (rejected_answer _ _ (validateEmail_answers _ _ _ He) Hv)
      as (msg & Hin & ->). eauto.
  - intros Hn He Hm. rewrite Hn. cbn [bind valid ok negb].
    rewrite He. cbn [bind valid ok negb].
    rewrite Hm. cbn [bind]. rewrite Hv. cbn [negb caught].
    destruct (rejected_answer _ _ (validateMessage_answers _ _ Hm) Hv)
      as (msg & Hin & ->). eauto.
  - intros anyMessage now' be'.
    rewrite (handler_reaches now' _ be' ∅ (Some (JStr (js "A")))
               (Some (JStr (js "x@y.com"))) (Some anyMessage)).
    + reflexivity.
    + split; [reflexivity |]. split; [apply fresh_store_admits |].
      eexists. repeat split; reflexivity.
Qed.

(** C4: a request that gets to the validation sequence with a name that is
    missing or whose trimmed length is below 2 or above 100 is answered 400
    with one of the name messages and insert is not called; and on no path
    at all is insert called for a request whose body binds such a name. *)
Theorem C4_name_out_of_bounds_rejected now req be st name email message :
  reachesValidation now req st name email message ->
  nameOutOfBounds name ->
  (exists msg, In msg nameErrors
     /\ snd (handler toLowerCase now req be st)
        = mkResult (mkResponse 400 jsonHeaders (stringifyError (Some msg)))
            None)
  /\ (forall now' req' be' st' body,
        reqJson req' = Ret body ->
        getProp body (js "name") = Ret name ->
        insertCall (snd (handler toLowerCase now' req' be' st')) = None).
Proof.
  intros Hreach Hname.
  assert (Hbad : exists msg, In msg nameErrors
                   /\ validateName name = Ret (mkValidation false (Some msg))).
  { destruct name as [[| | | n | |] |]; simpl in Hname; try tauto;
      try (exists (js "Name is required"); split; [simpl; tauto | reflexivity]).
    rewrite validateName_string. pose proof (len_nonneg (trim n)).
    destruct (Z.eqb_spec (len (trim n)) 0);
      [eexists; split; [| reflexivity]; simpl; tauto |].
    destruct (Z.ltb_spec (len (trim n)) 2);
      [eexists; split; [| reflexivity]; simpl; tauto |].
    destruct (Z.gtb_spec (len (trim n)) 100);
      [eexists; split; [| reflexivity]; simpl; tauto | lia]. }
  destruct Hbad as (msg & Hin & Hv). split.
  - exists msg. split; [exact Hin |].
    rewrite (handler_reaches _ _ _ _ _ _ _ Hreach). by rewrite Hv.
  - intros now' req' be' st' body Hb Hn.
    destruct (insertCall _) as [r |] eqn:Hr; [| reflexivity].
    apply insert_only_validated in Hr
      as (body' & n & e & m & Hb' & Hn' & _ & _ & Hok & _).
    unfold ok in Hok. congruence.
Qed.

(** C5: a string email passes [validateEmail] if and only if, trimmed and
    lowercased, it is non-empty, has at most 255 code units and has the
    shape local-part@domain.tld; one that misses the shape or exceeds 255
    gets one of the email messages, and so does a missing email; on a
    request that gets to the validation sequence with a valid name, such
    an email is answered 400 with that message and insert is not called. *)
Theorem C5_email_accepted_iff_shape (e : JsString.t) :
  (validateEmail toLowerCase (Some (JStr e)) = Ret ok <->
   toLowerCase (trim e) <> []
   /\ len (toLowerCase (trim e)) <= 255
   /\ emailShape (toLowerCase (trim e)))
  /\ (~ emailShape (toLowerCase (trim e))
      \/ len (toLowerCase (trim e)) > 255 ->
      (exists msg, In msg emailErrors
         /\ validateEmail toLowerCase (Some (JStr e))
            = Ret (mkValidation false (Some msg)))
      /\ forall now req be st name message,
           reachesValidation now req st name (Some (JStr e)) message ->
           validateName name = Ret ok ->
           exists msg, In msg emailErrors
             /\ snd (handler toLowerCase now req be st)
                = mkResult
                    (mkResponse 400 jsonHeaders (stringifyError (Some msg)))
                    None)
  /\ validateEmail toLowerCase None = Ret (invalid "Email is required").
Proof.
  split; [apply validateEmail_ok |]. split; [| reflexivity].
  intros Hbad.
  assert (Hrej : exists msg, In msg emailErrors
                   /\ validateEmail toLowerCase (Some (JStr e))
                      = Ret (mkValidation false (Some msg))).
  { destruct (validateEmail toLowerCase (Some (JStr e))) as [v |] eqn:Hv;
      [| by rewrite validateEmail_string in Hv].
    destruct (validateEmail_answers _ _ _ Hv) as [-> | (msg & -> & Hin)];
      [| eauto].
    apply validateEmail_ok in Hv as (_ & Hlen & Hshape).
    destruct Hbad; [tauto | lia]. }
  split; [exact Hrej |].
  intros now req be st name message Hreach Hname.
  destruct Hrej as (msg & Hin & Hv). exists msg. split; [exact Hin |].
  rewrite (handler_reaches _ _ _ _ _ _ _ Hreach).
  rewrite Hname. cbn [bind valid ok negb]. by rewrite Hv.
Qed.

(** C7, as the code has it: a POST that gets past the rate limiter and
    whose body cannot be parsed is answered by the catch-all, status 500
    with the generic message "An unexpected error occurred. Please try
    again.", and insert is not called. *)
Theorem C7_unparsable_body_is_500 now req be st (err : error) :
  method req = js "POST" ->
  fst (isRateLimited now (clientIP req) st) = false ->
  reqJson req = Throw err ->
  snd (handler toLowerCase now req be st)
    = mkResult
        (mkResponse 500 jsonHeaders
           (stringifyError
              (Some (js "An unexpected error occurred. Please try again."))))
        None.
Proof.
  intros Hm Hrl Hb. rewrite handler_post by done. cbn [snd]. rewrite Hrl.
  unfold process. by rewrite Hb.
Qed.

(** C8, as the code has it: every request gets one response and every
    response carries the cross-origin headers; an OPTIONS request gets the
    plain text ok with status 200, and every other request gets a JSON
    body that is an error with status 400, 405, 429 or 500 or the success
    body with status 200, under the JSON content type. *)
Theorem C8_every_path_responds now req be st :
  hasCorsHeaders (resp (snd (handler toLowerCase now req be st)))
  /\ (method req = js "OPTIONS" ->
      resp (snd (handler toLowerCase now req be st))
        = mkResponse 200 corsHeaders (Text (js "ok")))
  /\ (method req <> js "OPTIONS" ->
      structured (resp (snd (handler toLowerCase now req be st)))
      /\ headers (resp (snd (handler toLowerCase now req be st)))
         = jsonHeaders).
Proof.
  assert (Herr : forall (code : Z) (msg : JsString.t),
             In code [400; 405; 429; 500] ->
             structured (mkResponse code jsonHeaders (stringifyError (Some msg)))).
  { intros code msg Hc. left. exists msg. by split. }
  assert (Hjson : method req <> js "OPTIONS" ->
                  structured (resp (snd (handler toLowerCase now req be st)))
                  /\ headers (resp (snd (handler toLowerCase now req be st)))
                     = jsonHeaders).
  { intros Ho. destruct (decide (method req = js "POST")) as [Hp | Hp].
    - rewrite handler_post by done. cbn [snd].
      destruct (fst (isRateLimited now (clientIP req) st)).
      + split; [apply Herr; simpl; tauto | reflexivity].
      + destruct (process toLowerCase req be) as [r |] eqn:Hr; cbn [caught].
        * apply process_shape in Hr as [(msg & -> & _) | [-> | ->]].
          -- split; [apply Herr; simpl; tauto | reflexivity].
          -- split; [apply Herr; simpl; tauto | reflexivity].
          -- split; [right; eexists; by split | reflexivity].
        * split; [apply Herr; simpl; tauto | reflexivity].
    - rewrite handler_other_method by done.
      split; [apply Herr; simpl; tauto | reflexivity]. }
  split; [| split; [| exact Hjson]].
  - destruct (decide (method req = js "OPTIONS")) as [Ho | Ho].
    + rewrite handler_options by done. by intros h Hh.
    + destruct (Hjson Ho) as [_ Hh]. intros h Hin. rewrite Hh.
      unfold jsonHeaders. apply in_or_app. by left.
  - intros Ho. by rewrite handler_options.
Qed.

End ValidationClaims.

(** The window is fixed, not sliding: a window opened at 0 still takes four
    submissions at 3600000, and the one opened at 3600001 takes five more,
    so nine submissions are let through within one millisecond. *)
Example window_is_fixed_not_sliding :
  List.map (fun er => status (resp (snd er)))
    (snd (run asciiLower ∅
            [ submissionAt 0 shortName InsertSucceeds;
              submissionAt 3600000 shortName InsertSucceeds;
              submissionAt 3600000 shortName InsertSucceeds;
              submissionAt 3600000 shortName InsertSucceeds;
              submissionAt 3600000 shortName InsertSucceeds;
              submissionAt 3600000 shortName InsertSucceeds;
              submissionAt 3600001 shortName InsertSucceeds;
              submissionAt 3600001 shortName InsertSucceeds;
              submissionAt 3600001 shortName InsertSucceeds;
              submissionAt 3600001 shortName InsertSucceeds;
              submissionAt 3600001 shortName InsertSucceeds;
              submissionAt 3600001 shortName InsertSucceeds ]))
  = [400; 400; 400; 400; 400; 429; 400; 400; 400; 400; 400; 429].
Proof. reflexivity. Qed.

(** ** The claims on concrete inputs

    [asciiLower] stands for [toLowerCase]: the two agree on the ASCII
    strings used here. *)

Lemma C1_witness :
  snd (handler asciiLower 0 (ev_req (submissionAt 0 goodBody InsertSucceeds))
         InsertSucceeds ∅)
  = mkResult successResponse
      (Some (mkRow (js "Al") (js "a@b.com") (js "Hello there!"))).
Proof.
  refine (proj1 (C1_valid_submission_persisted asciiLower
                   (fun s _ => eq_refl) 0 _ ∅
                   (js "Al") (js "A@B.COM") (js "Hello there!") _ _ _ _ _)).
  - split; [reflexivity |]. split; [reflexivity |].
    eexists. repeat split; reflexivity.
  - vm_compute. split; discriminate.
  - apply test_emailRegex. reflexivity.
  - vm_compute. discriminate.
  - vm_compute. split; discriminate.
Defined.

Lemma C2_witness :
  let five := [ submissionAt 0 goodBody InsertSucceeds;
                submissionAt 600000 goodBody InsertSucceeds;
                submissionAt 1200000 goodBody InsertFails;
                submissionAt 1800000 shortName InsertSucceeds;
                submissionAt 3600000 goodBody InsertSucceeds ] in
  admittedFrom sampleAddress (snd (run asciiLower ∅ five)) = 5%nat
  /\ serve asciiLower (fst (run asciiLower ∅ five))
       (submissionAt 3600000 goodBody InsertSucceeds)
     = (fst (run asciiLower ∅ five), mkResult tooManyRequests None).
Proof.
  intros five.
  destruct (C2_sixth_submission_rejected asciiLower sampleAddress ∅
              (submissionAt 0 goodBody InsertSucceeds)
              [ submissionAt 600000 goodBody InsertSucceeds;
                submissionAt 1200000 goodBody InsertFails;
                submissionAt 1800000 shortName InsertSucceeds;
                submissionAt 3600000 goodBody InsertSucceeds ]
              (submissionAt 3600000 goodBody InsertSucceeds))
    as (H1 & H2 & _).
  - reflexivity.
  - vm_compute. exact I.
  - repeat constructor; intros _; vm_compute; discriminate.
  - vm_compute. lia.
  - reflexivity.
  - vm_compute. discriminate.
  - split; [exact H1 | exact H2].
Defined.

Lemma C3_witness :
  exists msg, In msg nameErrors
    /\ snd (handler asciiLower 0
              (postJson (contactBody "A" "x@y.com" (JStr (js "Hi"))))
              InsertSucceeds ∅)
       = mkResult (mkResponse 400 jsonHeaders (stringifyError (Some msg))) None.
Proof.
  refine (proj1 (C3_first_failure_reported asciiLower 0
                   (postJson (contactBody "A" "x@y.com" (JStr (js "Hi"))))
                   InsertSucceeds ∅
                   (Some (JStr (js "A"))) (Some (JStr (js "x@y.com")))
                   (Some (JStr (js "Hi")))
                   (invalid "Name must be at least 2 characters") _ _) _).
  - split; [reflexivity |]. split; [reflexivity |].
    eexists. repeat split; reflexivity.
  - reflexivity.
  - reflexivity.
Defined.

Lemma C4_witness :
  exists msg, In msg nameErrors
    /\ snd (handler asciiLower 0
              (postJson (JObj [ (js "email", JStr (js "x@y.com")) ]))
              InsertSucceeds ∅)
       = mkResult (mkResponse 400 jsonHeaders (stringifyError (Some msg))) None.
Proof.
  refine (proj1 (C4_name_out_of_bounds_rejected asciiLower 0
                   (postJson (JObj [ (js "email", JStr (js "x@y.com")) ]))
                   InsertSucceeds ∅
                   None (Some (JStr (js "x@y.com"))) None _ _)).
  - split; [reflexivity |]. split; [reflexivity |].
    eexists. repeat split; reflexivity.
  - exact I.
Defined.

Lemma C6_witness :
  isRateLimited 3600001 sampleAddress {[ sampleAddress := mkRecord 3 0 ]}
    = (false, <[ sampleAddress := mkRecord 1 3600001 ]>
                {[ sampleAddress := mkRecord 3 0 ]})
  /\ isRateLimited 3600000 sampleAddress {[ sampleAddress := mkRecord 3 0 ]}
     = (false, <[ sampleAddress := mkRecord 4 0 ]>
                 {[ sampleAddress := mkRecord 3 0 ]}).
Proof.
  split.
  - refine (proj1 (C6_window_reset_exact 3600001 sampleAddress
                     {[ sampleAddress := mkRecord 3 0 ]} (mkRecord 3 0) _) _).
    + reflexivity.
    + simpl. lia.
  - refine (proj1 (proj2 (C6_window_reset_exact 3600000 sampleAddress
                            {[ sampleAddress := mkRecord 3 0 ]}
                            (mkRecord 3 0) _)) _).
    + reflexivity.
    + simpl. lia.
Defined.

Lemma C7_witness :
  snd (handler asciiLower 0 unparsable InsertSucceeds ∅)
  = mkResult
      (mkResponse 500 jsonHeaders
         (stringifyError
            (Some (js "An unexpected error occurred. Please try again."))))
      None.
Proof.
  refine (C7_unparsable_body_is_500 asciiLower 0 unparsable InsertSucceeds ∅
            SyntaxError _ _ _).
  - reflexivity.
  - reflexivity.
  - reflexivity.
Defined.

(** C7 as stated fails: the unparsable POST is not answered with a
    400-class response carrying a field message. *)
Lemma C7_counterexample :
  ~ fieldErrorResponse
      (resp (snd (handler asciiLower 0 unparsable InsertSucceeds ∅))).
Proof. intros [[_ H] _]. revert H. by vm_compute. Qed.

(** C8 as stated fails: the OPTIONS request is answered with the text ok,
    which is neither of the two JSON shapes. *)
Lemma C8_counterexample :
  ~ structured (resp (snd (handler asciiLower 0 preflight InsertSucceeds ∅))).
Proof.
  intros [(msg & H & _) | (msg & H & _)]; vm_compute in H; discriminate.
Qed.

Lemma C9_witness :
  let five := [ submissionAt 0 shortName InsertSucceeds;
                submissionAt 1000 shortName InsertSucceeds;
                submissionAt 2000 shortName InsertSucceeds;
                submissionAt 3000 shortName InsertSucceeds;
                submissionAt 4000 shortName InsertSucceeds ] in
  List.map (fun er => status (resp (snd er))) (snd (run asciiLower ∅ five))
    = [400; 400; 400; 400; 400]
  /\ serve asciiLower (fst (run asciiLower ∅ five))
       (submissionAt 5000 goodBody InsertSucceeds)
     = (fst (run asciiLower ∅ five), respond tooManyRequests).
Proof.
  intros five. split; [reflexivity |].
  refine (proj2 (proj2 (proj2
            (C9_rejected_submissions_consume_budget asciiLower sampleAddress ∅
               (submissionAt 0 shortName InsertSucceeds)
               [ submissionAt 1000 shortName InsertSucceeds;
                 submissionAt 2000 shortName InsertSucceeds;
                 submissionAt 3000 shortName InsertSucceeds;
                 submissionAt 4000 shortName InsertSucceeds ]
               (submissionAt 5000 goodBody InsertSucceeds) _ _ _ _ _ _)))).
  - reflexivity.
  - vm_compute. exact I.
  - reflexivity.
  - repeat constructor; vm_compute; discriminate.
  - reflexivity.
  - vm_compute. discriminate.
Defined.

Lemma C10_witness :
  (admittedHeaderless
     (snd (run asciiLower ∅
             [ anonymousAt 0 goodBody InsertSucceeds;
               anonymousAt 1 goodBody InsertSucceeds;
               anonymousAt 2 shortName InsertSucceeds;
               anonymousAt 3 goodBody InsertSucceeds;
               anonymousAt 4 goodBody InsertSucceeds;
               anonymousAt 5 goodBody InsertSucceeds;
               anonymousAt 6 goodBody InsertSucceeds ])) <= 5)%nat.
Proof.
  refine (proj2 (C10_headerless_share_unknown_bucket asciiLower ∅
                   (anonymousAt 0 goodBody InsertSucceeds)
                   [ anonymousAt 1 goodBody InsertSucceeds;
                     anonymousAt 2 shortName InsertSucceeds;
                     anonymousAt 3 goodBody InsertSucceeds;
                     anonymousAt 4 goodBody InsertSucceeds;
                     anonymousAt 5 goodBody InsertSucceeds;
                     anonymousAt 6 goodBody InsertSucceeds ] _ _ _)).
  - reflexivity.
  - vm_compute. exact I.
  - repeat constructor; intros _; vm_compute; discriminate.
Defined.

(** * Further properties of the handler *)

(** ** Trimming *)

Module TrimFacts.

Lemma trimStart_fixed (s : JsString.t) :
  match s with [] => True | c :: _ => isWhiteSpace c = false end ->
  trimStart s = s.
Proof. destruct s as [| c s]; simpl; [done |]. by intros ->. Qed.

Lemma trimStart_head (s : JsString.t) :
  match trimStart s with [] => True | c :: _ => isWhiteSpace c = false end.
Proof.
  induction s as [| c s IH]; simpl; [done |].
  destruct (isWhiteSpace c) eqn:Hc; [exact IH | exact Hc].
Qed.

Lemma trimStart_idem (s : JsString.t) : trimStart (trimStart s) = trimStart s.
Proof. apply trimStart_fixed, trimStart_head. Qed.

Lemma trimStart_snoc (s : JsString.t) (c : N) :
  isWhiteSpace c = false -> trimStart (s ++ [c]) = trimStart s ++ [c].
Proof.
  intros Hc. induction s as [| d s IH]; simpl; [by rewrite Hc |].
  by destruct (isWhiteSpace d).
Qed.

Lemma trimEnd_cons (c : N) (s : JsString.t) :
  isWhiteSpace c = false -> trimEnd (c :: s) = c :: trimEnd s.
Proof.
  intros Hc. unfold trimEnd. simpl.
  rewrite trimStart_snoc by done. by rewrite rev_app_distr.
Qed.

Lemma trimEnd_idem (s : JsString.t) : trimEnd (trimEnd s) = trimEnd s.
Proof. unfold trimEnd. by rewrite rev_involutive, trimStart_idem. Qed.

Lemma trimEnd_head (s : JsString.t) :
  match s with [] => True | c :: _ => isWhiteSpace c = false end ->
  match trimEnd s with [] => True | c :: _ => isWhiteSpace c = false end.
Proof.
  destruct s as [| c s]; [done |]. intros Hc. by rewrite trimEnd_cons.
Qed.

(** Trimming a trimmed string changes nothing. *)
Lemma trim_idem (s : JsString.t) : trim (trim s) = trim s.
Proof.
  unfold trim.
  rewrite (trimStart_fixed (trimEnd (trimStart s)))
    by apply trimEnd_head, trimStart_head.
  apply trimEnd_idem.
Qed.

Lemma Forall_trimStart (P : N -> Prop) (s : JsString.t) :
  Forall P s -> Forall P (trimStart s).
Proof.
  induction 1 as [| c s Hc Hs IH]; simpl; [constructor |].
  destruct (isWhiteSpace c); [exact IH | by constructor].
Qed.

Lemma Forall_trim (P : N -> Prop) (s : JsString.t) :
  Forall P s -> Forall P (trim s).
Proof.
  intros H. unfold trim, trimEnd.
  apply Forall_rev, Forall_trimStart, Forall_rev, Forall_trimStart, H.
Qed.

Lemma Forall_beforeComma (s : JsString.t) :
  Forall (fun c => c <> 44%N) (beforeComma s).
Proof.
  induction s as [| c s IH]; simpl; [constructor |].
  destruct (N.eqb_spec c 44); [constructor | by constructor].
Qed.

End TrimFacts.

Import TrimFacts.

(** ** What reaches the table, and what each failure path answers *)

Section HandlerExtras.

Variable toLowerCase : JsString.t -> JsString.t.

Lemma not_post_no_insert now req be st :
  method req <> js "POST" ->
  handler toLowerCase now req be st
    = (st, snd (handler toLowerCase now req be st))
  /\ insertCall (snd (handler toLowerCase now req be st)) = None.
Proof.
  intros Hp. destruct (decide (method req = js "OPTIONS")) as [Ho | Ho].
  - by rewrite handler_options.
  - by rewrite handler_other_method.
Qed.

(** X1: insert is only ever called by a POST that got past the rate
    limiter, with a backend whose client could be created, and with a row
    inside the bounds of the data model: name of 2 to 100 code units, email
    of at most 255 with the local@domain.tld shape, message of 10 to
    5000. *)
Theorem inserted_row_within_bounds now req be st (r : row) :
  insertCall (snd (handler toLowerCase now req be st)) = Some r ->
  rowWithinBounds r
  /\ method req = js "POST"
  /\ fst (isRateLimited now (clientIP req) st) = false
  /\ be <> ClientThrows.
Proof.
  intros H.
  destruct (insert_only_validated toLowerCase now req be st r H)
    as (body & n & e & m & Hb & Hn & He & Hm & Hvn & Hve & Hvm & ->).
  split.
  { apply validateName_ok in Hvn. apply validateMessage_ok in Hvm.
    apply validateEmail_ok in Hve as (_ & ? & ?).
    unfold rowWithinBounds. simpl. auto. }
  destruct (decide (method req = js "POST")) as [Hp | Hp].
  2: { destruct (not_post_no_insert now req be st Hp) as [_ Hnone]. congruence. }
  split; [exact Hp |].
  rewrite handler_post in H by done. cbn [snd] in H.
  destruct (fst (isRateLimited now (clientIP req) st)); [discriminate |].
  split; [reflexivity |]. intros ->.
  rewrite (process_bound toLowerCase req ClientThrows body _ _ _ Hb Hn He Hm) in H.
  rewrite Hvn in H. cbn [bind valid ok negb] in H.
  rewrite Hve in H. cbn [bind valid ok negb] in H.
  rewrite Hvm in H. discriminate.
Qed.

(** X2: the name and the message handed to insert are already trimmed,
    and the validators accept them as they are: storing is a normal form
    for the two fields. *)
Theorem inserted_fields_are_normal now req be st (r : row) :
  insertCall (snd (handler toLowerCase now req be st)) = Some r ->
  trim (row_name r) = row_name r
  /\ trim (row_message r) = row_message r
  /\ validateName (Some (JStr (row_name r))) = Ret ok
  /\ validateMessage (Some (JStr (row_message r))) = Ret ok.
Proof.
  intros H.
  destruct (insert_only_validated toLowerCase now req be st r H)
    as (body & n & e & m & _ & _ & _ & _ & Hvn & _ & Hvm & ->).
  cbn [row_name row_message].
  split; [apply trim_idem |]. split; [apply trim_idem |].
  split.
  - apply validateName_ok. rewrite trim_idem. by apply validateName_ok.
  - apply validateMessage_ok. rewrite trim_idem. by apply validateMessage_ok.
Qed.

(** X3: a string message passes [validateMessage] if and only if its
    trimmed length is between 10 and 5000; otherwise it gets one of the
    three message errors, and on a request that gets to the validation
    sequence with a valid name and email the handler answers 400 with it
    and does not call insert. *)
Theorem message_accepted_iff_bounds (m : JsString.t) :
  (validateMessage (Some (JStr m)) = Ret ok <-> 10 <= len (trim m) <= 5000)
  /\ (len (trim m) < 10 \/ len (trim m) > 5000 ->
      (exists msg, In msg messageErrors
         /\ validateMessage (Some (JStr m))
            = Ret (mkValidation false (Some msg)))
      /\ forall now req be st name email,
           reachesValidation now req st name email (Some (JStr m)) ->
           validateName name = Ret ok ->
           validateEmail toLowerCase email = Ret ok ->
           exists msg, In msg messageErrors
             /\ snd (handler toLowerCase now req be st)
                = mkResult
                    (mkResponse 400 jsonHeaders (stringifyError (Some msg)))
                    None)
  /\ validateMessage None = Ret (invalid "Message is required").
Proof.
  split; [apply validateMessage_ok |]. split; [| reflexivity].
  intros Hbad.
  assert (Hrej : exists msg, In msg messageErrors
                   /\ validateMessage (Some (JStr m))
                      = Ret (mkValidation false (Some msg))).
  { destruct (validateMessage (Some (JStr m))) as [v |] eqn:Hv;
      [| by rewrite validateMessage_string in Hv].
    destruct (validateMessage_answers _ _ Hv) as [-> | (msg & -> & Hin)];
      [| eauto].
    apply validateMessage_ok in Hv. lia. }
  split; [exact Hrej |].
  intros now req be st name email Hreach Hname Hemail.
  destruct Hrej as (msg & Hin & Hv). exists msg. split; [exact Hin |].
  rewrite (handler_reaches _ _ _ _ _ _ _ _ Hreach).
  rewrite Hname. cbn [bind valid ok negb].
  rewrite Hemail. cbn [bind valid ok negb]. by rewrite Hv.
Qed.

Lemma notTrimmable_throws (v : jsval) :
  notTrimmable v -> optTrim v = Throw TypeError.
Proof. by destruct v as [[] |]. Qed.

(** X4: a field that is a number, a boolean, an array or an object is not
    a validation error: [trim] is not callable on it, and the handler
    answers the generic 500 without calling insert, for the name always,
    for the email when the name is valid, and for the message when the name
    and the email are valid. *)
Theorem non_string_field_is_500 now req be st name email message :
  reachesValidation now req st name email message ->
  (notTrimmable name
   \/ validateName name = Ret ok /\ notTrimmable email
   \/ validateName name = Ret ok
      /\ validateEmail toLowerCase email = Ret ok /\ notTrimmable message) ->
  snd (handler toLowerCase now req be st) = mkResult unexpectedError None.
Proof.
  intros Hreach H. rewrite (handler_reaches _ _ _ _ _ _ _ _ Hreach).
  destruct H as [Hn | [[Hn He] | (Hn & He & Hm)]].
  - unfold validateName. by rewrite (notTrimmable_throws _ Hn).
  - rewrite Hn. cbn [bind valid ok negb].
    unfold validateEmail, optTrimLower. by rewrite (notTrimmable_throws _ He).
  - rewrite Hn. cbn [bind valid ok negb]. rewrite He. cbn [bind valid ok negb].
    unfold validateMessage. by rewrite (notTrimmable_throws _ Hm).
Qed.

(** X5: a POST that got past the rate limiter with the body [null] is
    answered the generic 500 (destructuring throws); with a body that is a
    string, a number, a boolean or an array all three fields are missing
    and the answer is 400 "Name is required".  Neither calls insert. *)
Theorem body_that_is_not_an_object now req be st (b : json) :
  method req = js "POST" ->
  fst (isRateLimited now (clientIP req) st) = false ->
  reqJson req = Ret b ->
  (b = JNull ->
   snd (handler toLowerCase now req be st) = mkResult unexpectedError None)
  /\ (isPrimitiveOrArray b ->
      snd (handler toLowerCase now req be st)
        = mkResult (errorResponse 400 "Name is required") None).
Proof.
  intros Hp Hrl Hb. rewrite handler_post by done. cbn [snd]. rewrite Hrl.
  unfold process. rewrite Hb. split.
  - by intros ->.
  - by destruct b.
Qed.

(** X6: only a POST can change the rate-limit store or call insert: any
    other method leaves the store as it is and inserts nothing, and unless
    it is OPTIONS it is answered 405 "Method not allowed". *)
Theorem only_post_has_effects now req be st :
  method req <> js "POST" ->
  fst (handler toLowerCase now req be st) = st
  /\ insertCall (snd (handler toLowerCase now req be st)) = None
  /\ (method req <> js "OPTIONS" ->
      resp (snd (handler toLowerCase now req be st))
        = mkResponse 405 jsonHeaders
            (stringifyError (Some (js "Method not allowed")))).
Proof.
  intros Hp. destruct (not_post_no_insert now req be st Hp) as [H1 H2].
  split; [by rewrite H1 |]. split; [exact H2 |].
  intros Ho. by rewrite handler_other_method.
Qed.

(** X7: with three valid string fields on a request that gets to the
    validation sequence, a failed insert is answered 500 "Failed to submit
    message. Please try again." after insert was called with the
    normalized row, and a client that cannot be created is answered the
    generic 500 with insert never called. *)
Theorem persistence_failures now req st (n e m : JsString.t) :
  reachesValidation now req st (Some (JStr n)) (Some (JStr e)) (Some (JStr m)) ->
  validateName (Some (JStr n)) = Ret ok ->
  validateEmail toLowerCase (Some (JStr e)) = Ret ok ->
  validateMessage (Some (JStr m)) = Ret ok ->
  snd (handler toLowerCase now req InsertFails st)
    = mkResult
        (mkResponse 500 jsonHeaders
           (stringifyError
              (Some (js "Failed to submit message. Please try again."))))
        (Some (mkRow (trim n) (toLowerCase (trim e)) (trim m)))
  /\ snd (handler toLowerCase now req ClientThrows st)
     = mkResult unexpectedError None.
Proof.
  intros Hreach Hn He Hm.
  rewrite !(handler_reaches _ _ _ _ _ _ _ _ Hreach).
  rewrite Hn. cbn [bind valid ok negb]. rewrite He. cbn [bind valid ok negb].
  rewrite Hm. by split.
Qed.

End HandlerExtras.

(** ** The source address *)

(** X8: the address a request is keyed by is never empty; when the first
    entry of x-forwarded-for is not blank it is that entry, trimmed and
    free of commas; when the header is missing or its first entry is blank
    (later entries are not looked at) it is cf-connecting-ip if that is
    non-empty, and "unknown" otherwise. *)
Theorem clientIP_derivation req :
  clientIP req <> []
  /\ (forall h : JsString.t,
        forwardedFor req = Some h -> trim (beforeComma h) <> [] ->
        clientIP req = trim (beforeComma h)
        /\ Forall (fun c => c <> 44%N) (clientIP req)
        /\ trim (clientIP req) = clientIP req)
  /\ (forwardedFor req = None
      \/ (exists h : JsString.t,
            forwardedFor req = Some h /\ trim (beforeComma h) = []) ->
      clientIP req = match connectingIp req with
                     | Some (c :: s) => c :: s
                     | _ => js "unknown"
                     end).
Proof.
  destruct req as [m x y b]. unfold clientIP. cbn [forwardedFor connectingIp].
  split; [| split].
  - destruct x as [h |]; simpl; [destruct (trim (beforeComma h)); [| done] |];
      by destruct y as [[| c s] |].
  - intros h [= ->] Hne. simpl.
    destruct (trim (beforeComma h)) as [| c s] eqn:E; [done |]. simpl.
    split; [reflexivity |]. rewrite <- E.
    split; [apply Forall_trim, Forall_beforeComma | apply trim_idem].
  - intros [-> | (h & -> & E)]; simpl; [| rewrite E];
      by destruct y as [[| c s] |].
Qed.

(** ** Invariants of the rate-limit store *)

Section StoreExtras.

Variable toLowerCase : JsString.t -> JsString.t.

Lemma isRateLimited_wellCounted now ip st :
  wellCounted st -> wellCounted (snd (isRateLimited now ip st)).
Proof.
  unfold wellCounted, isRateLimited, MAX_SUBMISSIONS_PER_WINDOW.
  intros Hst ip' r'.
  destruct (st !! ip) as [r |] eqn:Hr; simpl.
  - destruct (_ >? _); simpl.
    + destruct (decide (ip = ip')) as [<- | Hne].
      * rewrite lookup_insert_eq. intros [= <-]. simpl. lia.
      * rewrite lookup_insert_ne by done. apply Hst.
    + destruct (Z.geb_spec (count r) 5); simpl; [apply Hst |].
      destruct (decide (ip = ip')) as [<- | Hne].
      * rewrite lookup_insert_eq. intros [= <-]. simpl.
        specialize (Hst ip r Hr). lia.
      * rewrite lookup_insert_ne by done. apply Hst.
  - destruct (decide (ip = ip')) as [<- | Hne].
    + rewrite lookup_insert_eq. intros [= <-]. simpl. lia.
    + rewrite lookup_insert_ne by done. apply Hst.
Qed.

Lemma run_wellCounted es :
  forall st, wellCounted st -> wellCounted (fst (run toLowerCase st es)).
Proof.
  induction es as [| e es IH]; intros st Hst; [exact Hst |].
  rewrite run_cons. cbn [fst]. apply IH. unfold serve.
  rewrite handler_store. case_bool_decide; [| exact Hst].
  by apply isRateLimited_wellCounted.
Qed.

(** X9: on an instance that started with the empty store, whatever
    requests it has served, every record holds a count between 1 and 5. *)
Theorem counts_stay_within_limit es ip (r : record) :
  fst (run toLowerCase ∅ es) !! ip = Some r ->
  1 <= count r <= 5.
Proof.
  apply (run_wellCounted es ∅). intros ip' r'. by rewrite lookup_empty.
Qed.

(** X10: refused submissions do not prolong the refusal.  However many
    POSTs an address makes inside its window, the first one strictly later
    than windowStart + 1 hour is let through and starts a window with
    count 1. *)
Theorem readmitted_after_expiry ip st e1 es e2 :
  isPostFrom ip e1 = true ->
  opensWindow ip (ev_now e1) st ->
  Forall (withinWindow ip (ev_now e1)) es ->
  isPostFrom ip e2 = true ->
  ev_now e2 > ev_now e1 + 3600000 ->
  serve toLowerCase (fst (run toLowerCase st (e1 :: es))) e2
    = (<[ip := mkRecord 1 (ev_now e2)]> (fst (run toLowerCase st (e1 :: es))),
       caught (process toLowerCase (ev_req e2) (ev_backend e2)))
  /\ admitted (snd (serve toLowerCase
                      (fst (run toLowerCase st (e1 :: es))) e2)) = true.
Proof.
  intros Hp Ho Hw Hp2 Hlate.
  destruct (window_opened toLowerCase ip st e1 es Hp Ho Hw) as [Hr _].
  assert (Hopen : opensWindow ip (ev_now e2)
                    (fst (run toLowerCase st (e1 :: es)))).
  { unfold opensWindow. rewrite Hr. cbn [windowStart]. rewrite window_ms. lia. }
  rewrite (serve_opens toLowerCase ip _ e2 Hp2 Hopen).
  split; [reflexivity | apply caught_admitted].
Qed.

Lemma serve_local ip st st' e :
  isPostFrom ip e = true ->
  st !! ip = st' !! ip ->
  snd (serve toLowerCase st e) = snd (serve toLowerCase st' e)
  /\ fst (serve toLowerCase st e) !! ip = fst (serve toLowerCase st' e) !! ip.
Proof.
  unfold isPostFrom, serve. intros H Heq.
  apply andb_true_iff in H as [Hp Hip].
  apply bool_decide_eq_true in Hp, Hip.
  rewrite !handler_post by done. rewrite Hip. cbn [fst snd].
  unfold isRateLimited. rewrite Heq.
  destruct (st' !! ip) as [r |] eqn:Hr; cbn [fst snd].
  - destruct (_ >? _); cbn [fst snd]; [by rewrite !lookup_insert_eq |].
    destruct (_ >=? _); cbn [fst snd]; [by rewrite Hr |].
    by rewrite !lookup_insert_eq.
  - by rewrite !lookup_insert_eq.
Qed.

Lemma run_isolated ip es :
  forall st st',
    st !! ip = st' !! ip ->
    fst (run toLowerCase st es) !! ip
      = fst (run toLowerCase st' (List.filter (isPostFrom ip) es)) !! ip
    /\ List.filter (fun er => isPostFrom ip (fst er))
         (snd (run toLowerCase st es))
       = snd (run toLowerCase st' (List.filter (isPostFrom ip) es)).
Proof.
  induction es as [| e es IH]; intros st st' Heq; [done |].
  rewrite run_cons. cbn [fst snd List.filter].
  destruct (isPostFrom ip e) eqn:Hp.
  - rewrite run_cons. cbn [fst snd].
    destruct (serve_local ip st st' e Hp Heq) as [Hres Hst].
    destruct (IH _ _ Hst) as [IH1 IH2]. rewrite IH1, IH2, Hres. done.
  - apply IH. by rewrite serve_frame.
Qed.

(** X11: addresses do not interfere.  Removing from a trace every request
    that is not a POST from [ip] changes neither the record [ip] ends with
    nor the results of the POSTs from [ip]. *)
Theorem address_isolation ip st es :
  fst (run toLowerCase st es) !! ip
    = fst (run toLowerCase st (List.filter (isPostFrom ip) es)) !! ip
  /\ List.filter (fun er => isPostFrom ip (fst er))
       (snd (run toLowerCase st es))
     = snd (run toLowerCase st (List.filter (isPostFrom ip) es)).
Proof. by apply run_isolated. Qed.

#[local] Set Warnings "-clear-no-such-hyp".

Lemma isRateLimited_dom now ip st :
  dom (snd (isRateLimited now ip st)) = {[ ip ]} ∪ dom st.
Proof.
  unfold isRateLimited. destruct (st !! ip) as [r |] eqn:Hr; simpl.
  - destruct (_ >? _); simpl; [by rewrite dom_insert_L |].
    destruct (_ >=? _); simpl; [| by rewrite dom_insert_L].
    assert (ip ∈ dom st) by (apply elem_of_dom; eauto). set_solver.
  - by rewrite dom_insert_L.
Qed.

(** X12: the store never forgets an address: after a trace its keys are
    the keys it had together with the address of every POST served,
    refused ones included. *)
Theorem store_keys_only_grow st es :
  dom (fst (run toLowerCase st es)) = dom st ∪ postAddresses es.
Proof.
  revert st. induction es as [| e es IH]; intros st.
  - unfold postAddresses. simpl. set_solver.
  - rewrite run_cons. cbn [fst]. rewrite IH. unfold serve.
    rewrite handler_store. unfold postAddresses. cbn [List.filter].
    unfold isPost at 2. case_bool_decide; cbn [List.map list_to_set].
    + rewrite isRateLimited_dom. set_solver.
    + set_solver.
Qed.

End StoreExtras.

(** ** What an accepted email looks like *)

Module EmailFacts.

Ltac unfold_classes :=
  unfold isLocalUnit, isDomainUnit, isLetter, isDigit, isWhiteSpace, isAscii in *;
  repeat match goal with
    | H : _ = true |- _ =>
        first [ apply orb_true_iff in H as [H | H]
              | apply andb_true_iff in H as [? ?]
              | apply N.leb_le in H
              | apply N.eqb_eq in H ]
    end.

Lemma localUnit_plain (c : N) :
  isLocalUnit c = true ->
  c <> 64%N /\ isWhiteSpace c = false /\ isAscii c.
Proof.
  intros H. split; [| split].
  - intros ->. discriminate.
  - apply not_true_iff_false. intros Hw. unfold_classes; lia.
  - unfold_classes; lia.
Qed.

Lemma domainUnit_local (c : N) : isDomainUnit c = true -> isLocalUnit c = true.
Proof.
  unfold isDomainUnit, isLocalUnit. intros H.
  rewrite !orb_true_iff in H. destruct H as [[[H | H] | H] | H]; rewrite H;
    repeat rewrite orb_true_r; reflexivity.
Qed.

Lemma letter_local (c : N) : isLetter c = true -> isLocalUnit c = true.
Proof. intros H. unfold isLocalUnit. rewrite H. reflexivity. Qed.

Lemma occurrences_app (c : N) (s1 s2 : JsString.t) :
  occurrences c (s1 ++ s2) = (occurrences c s1 + occurrences c s2)%nat.
Proof. unfold occurrences. by rewrite List.filter_app, length_app. Qed.

Lemma occurrences_none (c : N) (s : JsString.t) :
  Forall (fun d => d <> c) s -> occurrences c s = 0%nat.
Proof.
  unfold occurrences. induction 1 as [| d s Hd _ IH]; simpl; [done |].
  destruct (N.eqb_spec c d); [congruence | exact IH].
Qed.

Lemma emailShape_plain (s : JsString.t) :
  emailShape s ->
  occurrences 64 s = 1%nat
  /\ Forall (fun c => isWhiteSpace c = false /\ isAscii c) s.
Proof.
  intros (l & d & tld & -> & _ & Hl & _ & Hd & _ & Ht).
  assert (Hd' : Forall (fun c => isLocalUnit c = true) d).
  { eapply Forall_impl; [exact Hd | apply domainUnit_local]. }
  assert (Ht' : Forall (fun c => isLocalUnit c = true) tld).
  { eapply Forall_impl; [exact Ht | apply letter_local]. }
  assert (Hno : forall u, Forall (fun c => isLocalUnit c = true) u ->
                          occurrences 64 u = 0%nat).
  { intros u Hu. apply occurrences_none.
    eapply Forall_impl; [exact Hu | apply localUnit_plain]. }
  assert (Hplain : forall u, Forall (fun c => isLocalUnit c = true) u ->
                     Forall (fun c => isWhiteSpace c = false /\ isAscii c) u).
  { intros u Hu. eapply Forall_impl; [exact Hu |].
    intros c Hc. by apply localUnit_plain in Hc as (_ & ? & ?). }
  split.
  - rewrite !occurrences_app, (Hno l Hl), (Hno d Hd'), (Hno tld Ht').
    reflexivity.
  - repeat apply Forall_app_2; auto; by repeat constructor.
Qed.

End EmailFacts.

(** X13: an email that passes [validateEmail] holds, once trimmed and
    lowercased, exactly one @, no whitespace and only ASCII code units. *)
Theorem accepted_email_is_plain (toLowerCase : JsString.t -> JsString.t)
    (e : JsString.t) :
  validateEmail toLowerCase (Some (JStr e)) = Ret ok ->
  occurrences 64 (toLowerCase (trim e)) = 1%nat
  /\ Forall (fun c => isWhiteSpace c = false /\ isAscii c)
       (toLowerCase (trim e)).
Proof.
  intros H. apply validateEmail_ok in H as (_ & _ & H).
  by apply EmailFacts.emailShape_plain.
Qed.

(** * Properties of the contact form *)

Section ClientExtras.

Import ContactForm.

Variable toLowerCase : JsString.t -> JsString.t.
Variable toStringOther : json -> JsString.t.

Lemma handleSubmit_cases (fd : formData) (net : invokeResult) :
  let out := handleSubmit toLowerCase toStringOther fd net in
  let sent := mkRow (trim (fd_name fd)) (toLowerCase (trim (fd_email fd)))
                (trim (fd_message fd)) in
  (~ 2 <= len (trim (fd_name fd)) <= 100
   /\ out = mkSubmit fd false [ invalidNameToast ] None)
  \/ (2 <= len (trim (fd_name fd)) <= 100
      /\ ~ 10 <= len (trim (fd_message fd)) <= 5000
      /\ out = mkSubmit fd false [ invalidMessageToast ] None)
  \/ (2 <= len (trim (fd_name fd)) <= 100
      /\ 10 <= len (trim (fd_message fd)) <= 5000
      /\ (tryInvoke toStringOther net = None
          /\ out = mkSubmit emptyForm false [ sentToast ] (Some sent)
          \/ exists err : thrown,
               tryInvoke toStringOther net = Some err
               /\ out = mkSubmit fd false [ errorToast err ] (Some sent))).
Proof.
  cbv zeta. unfold handleSubmit. cbn [row_name row_message].
  destruct (Z.ltb_spec (len (trim (fd_name fd))) 2); cbn [orb];
    [left; split; [lia | done] |].
  destruct (Z.gtb_spec (len (trim (fd_name fd))) 100); cbn [orb];
    [left; split; [lia | done] |].
  destruct (Z.ltb_spec (len (trim (fd_message fd))) 10); cbn [orb];
    [right; left; split; [lia | split; [lia | done]] |].
  destruct (Z.gtb_spec (len (trim (fd_message fd))) 5000); cbn [orb];
    [right; left; split; [lia | split; [lia | done]] |].
  right; right. split; [lia |]. split; [lia |].
  destruct (tryInvoke toStringOther net) as [err |]; [right; eauto | by left].
Qed.

(** X14: the form calls the endpoint exactly when the server's name and
    message validators accept what was typed, whatever the email field
    holds; and the body it sends carries the trimmed name, the trimmed and
    lowercased email and the trimmed message. *)
Theorem form_sends_iff_server_would_accept (fd : formData)
    (net : invokeResult) :
  (invoked (handleSubmit toLowerCase toStringOther fd net) <> None <->
   validateName (Some (JStr (fd_name fd))) = Ret ok
   /\ validateMessage (Some (JStr (fd_message fd))) = Ret ok)
  /\ (forall r : row,
        invoked (handleSubmit toLowerCase toStringOther fd net) = Some r ->
        r = mkRow (trim (fd_name fd)) (toLowerCase (trim (fd_email fd)))
              (trim (fd_message fd))).
Proof.
  rewrite validateName_ok, validateMessage_ok.
  destruct (handleSubmit_cases fd net)
    as [[Hn ->] | [(Hn & Hm & ->) | (Hn & Hm & [[_ ->] | (err & _ & ->)])]];
    cbn [invoked]; (split; [split; [intros H; tauto | intros H; tauto || done]
                           | intros r [= <-]; reflexivity || discriminate]).
Qed.

(** X15: a body the form sends is never turned down by the server for its
    name or its message.  When a POST carrying that body gets past the rate
    limiter, the answer is the email validator's 400 if the email is not
    accepted, and otherwise, if the insert succeeds, the 200 with the name
    and the message stored exactly as sent. *)
Theorem sent_body_passes_name_and_message (fd : formData)
    (net : invokeResult) (r : row) now req st :
  invoked (handleSubmit toLowerCase toStringOther fd net) = Some r ->
  method req = js "POST" ->
  fst (isRateLimited now (clientIP req) st) = false ->
  reqJson req = Ret (payloadJson r) ->
  (validateEmail toLowerCase (Some (JStr (row_email r))) = Ret ok ->
   snd (handler toLowerCase now req InsertSucceeds st)
     = mkResult successResponse
         (Some (mkRow (row_name r) (toLowerCase (trim (row_email r)))
                  (row_message r))))
  /\ (validateEmail toLowerCase (Some (JStr (row_email r))) <> Ret ok ->
      forall be,
      exists msg, In msg emailErrors
        /\ snd (handler toLowerCase now req be st)
           = mkResult
               (mkResponse 400 jsonHeaders (stringifyError (Some msg)))
               None).
Proof.
  intros Hsent Hp Hrl Hb.
  assert (Hreach : reachesValidation now req st (Some (JStr (row_name r)))
                     (Some (JStr (row_email r))) (Some (JStr (row_message r)))).
  { split; [exact Hp |]. split; [exact Hrl |].
    exists (payloadJson r). repeat split; [exact Hb | ..]; reflexivity. }
  assert (Hnm : validateName (Some (JStr (row_name r))) = Ret ok
                /\ validateMessage (Some (JStr (row_message r))) = Ret ok
                /\ trim (row_name r) = row_name r
                /\ trim (row_message r) = row_message r).
  { destruct (handleSubmit_cases fd net)
      as [[_ Ho] | [(_ & _ & Ho) | (Hn & Hm & Ho)]];
      cbv zeta in Ho; [rewrite Ho in Hsent; discriminate .. |].
    assert (r = mkRow (trim (fd_name fd)) (toLowerCase (trim (fd_email fd)))
                  (trim (fd_message fd))) as ->.
    { destruct Ho as [[_ Ho] | (err & _ & Ho)]; rewrite Ho in Hsent;
        by injection Hsent. }
    cbn [row_name row_message]. rewrite validateName_ok, validateMessage_ok.
    by rewrite !trim_idem. }
  destruct Hnm as (Hn & Hm & Htn & Htm).
  split.
  - intros He. rewrite (handler_reaches _ _ _ _ _ _ _ _ Hreach).
    rewrite Hn. cbn [bind valid ok negb]. rewrite He. cbn [bind valid ok negb].
    rewrite Hm. cbn [bind valid ok negb insertStep callTrim caught].
    by rewrite Htn, Htm.
  - intros He be. rewrite (handler_reaches _ _ _ _ _ _ _ _ Hreach).
    rewrite Hn. cbn [bind valid ok negb].
    destruct (validateEmail toLowerCase (Some (JStr (row_email r))))
      as [v |] eqn:Hv; [| by rewrite validateEmail_string in Hv].
    destruct (validateEmail_answers _ _ _ Hv) as [-> | (msg & -> & Hin)];
      [done |].
    exists msg. by split.
Qed.

(** X16: every submission ends with [isSubmitting] false and exactly one
    toast.  The form is emptied only together with the "Message sent!"
    toast, which takes a call that resolved without an error object and
    without a truthy [error] in its data; on every other path the toast is
    destructive and what the user typed is kept. *)
Theorem form_outcome (fd : formData) (net : invokeResult) :
  let out := handleSubmit toLowerCase toStringOther fd net in
  submitting_after out = false
  /\ (shown out = [ sentToast ] /\ form_after out = emptyForm
      /\ invoked out <> None
      /\ (exists data, net = Resolves data None
                        /\ truthy (optionalError data) = false)
      \/ (exists t, shown out = [ t ] /\ toast_variant t = Destructive)
         /\ form_after out = fd).
Proof.
  cbv zeta.
  destruct (handleSubmit_cases fd net)
    as [[_ Ho] | [(_ & _ & Ho) | (_ & _ & [[Ht Ho] | (err & _ & Ho)])]];
    cbv zeta in Ho; rewrite Ho; cbn [submitting_after shown form_after invoked];
    (split; [reflexivity |]).
  - right. split; [by eexists | reflexivity].
  - right. split; [by eexists | reflexivity].
  - left. repeat split; [done |].
    destruct net as [data [err |] | err]; cbn [tryInvoke] in Ht;
      try discriminate.
    exists data. split; [reflexivity |].
    destruct (truthy (optionalError data)) eqn:Htr; [| reflexivity].
    destruct (optionalError data); [discriminate | done].
  - right. split; [by eexists | reflexivity].
Qed.

End ClientExtras.

(** ** Window starts *)

Section WindowStartExtras.

Variable toLowerCase : JsString.t -> JsString.t.

Lemma isRateLimited_window_start now ip ip' st (r : record) :
  st !! ip' = Some r ->
  exists r', snd (isRateLimited now ip st) !! ip' = Some r'
             /\ sameOrLaterWindow (windowStart r) (windowStart r').
Proof.
  intros Hr. destruct (decide (ip = ip')) as [<- | Hne].
  2: { exists r. rewrite isRateLimited_frame by done. split; [done | by left]. }
  unfold isRateLimited. rewrite Hr.
  destruct (Z.gtb_spec (now - windowStart r) RATE_LIMIT_WINDOW_MS); simpl.
  - eexists. rewrite lookup_insert_eq. split; [done |]. right. simpl. lia.
  - destruct (_ >=? _); simpl.
    + exists r. split; [done | by left].
    + eexists. rewrite lookup_insert_eq. split; [done | by left].
Qed.

(** X17: the window start of an address only moves forward, and by more
    than an hour at a time: whatever is served, in whatever order and with
    whatever clock readings, the record of an address that had one keeps
    its window start or gets one more than 3600000 ms later. *)
Theorem window_start_only_moves_forward ip st es (r : record) :
  st !! ip = Some r ->
  exists r', fst (run toLowerCase st es) !! ip = Some r'
             /\ (windowStart r' = windowStart r
                 \/ windowStart r' > windowStart r + 3600000).
Proof.
  revert st r. induction es as [| e es IH]; intros st r Hr.
  - exists r. split; [done | by left].
  - rewrite run_cons. cbn [fst].
    assert (Hstep : exists r1, fst (serve toLowerCase st e) !! ip = Some r1
                      /\ sameOrLaterWindow (windowStart r) (windowStart r1)).
    { unfold serve. rewrite handler_store. case_bool_decide.
      - by apply isRateLimited_window_start.
      - exists r. split; [done | by left]. }
    destruct Hstep as (r1 & Hr1 & Hw1).
    destruct (IH _ _ Hr1) as (r2 & Hr2 & Hw2).
    exists r2. split; [exact Hr2 |].
    unfold sameOrLaterWindow in Hw1. rewrite window_ms in Hw1. lia.
Qed.

End WindowStartExtras.

(** ** The further properties on concrete inputs *)

Lemma inserted_row_within_bounds_witness :
  rowWithinBounds (mkRow (js "Al") (js "a@b.com") (js "Hello there!")).
Proof.
  refine (proj1 (inserted_row_within_bounds asciiLower 0
                   (ev_req (submissionAt 0 goodBody InsertSucceeds))
                   InsertSucceeds ∅
                   (mkRow (js "Al") (js "a@b.com") (js "Hello there!")) _)).
  reflexivity.
Defined.

Lemma inserted_fields_are_normal_witness :
  trim (js "Al") = js "Al"
  /\ trim (js "Hello there!") = js "Hello there!"
  /\ validateName (Some (JStr (js "Al"))) = Ret ok
  /\ validateMessage (Some (JStr (js "Hello there!"))) = Ret ok.
Proof.
  refine (inserted_fields_are_normal asciiLower 0
            (postJson (contactBody " Al " "A@B.COM"
                         (JStr (js "  Hello there!  "))))
            InsertSucceeds ∅
            (mkRow (js "Al") (js "a@b.com") (js "Hello there!")) _).
  reflexivity.
Defined.

Lemma non_string_field_is_500_witness :
  snd (handler asciiLower 0
         (postJson (JObj [ (js "name", JNum 42);
                           (js "email", JStr (js "x@y.com")) ]))
         InsertSucceeds ∅)
  = mkResult unexpectedError None.
Proof.
  refine (non_string_field_is_500 asciiLower 0 _ InsertSucceeds ∅
            (Some (JNum 42)) (Some (JStr (js "x@y.com"))) None _ _).
  - split; [reflexivity |]. split; [reflexivity |].
    eexists. repeat split; reflexivity.
  - left. exact I.
Defined.

Lemma body_that_is_not_an_object_witness :
  snd (handler asciiLower 0 (postJson (JArr [])) InsertSucceeds ∅)
  = mkResult (errorResponse 400 "Name is required") None.
Proof.
  refine (proj2 (body_that_is_not_an_object asciiLower 0
                   (postJson (JArr [])) InsertSucceeds ∅ (JArr []) _ _ _) _).
  - reflexivity.
  - reflexivity.
  - reflexivity.
  - exact I.
Defined.

Lemma only_post_has_effects_witness :
  fst (handler asciiLower 7
         (mkRequest (js "GET") (Some sampleAddress) None goodBody)
         InsertSucceeds {[ sampleAddress := mkRecord 2 0 ]})
  = {[ sampleAddress := mkRecord 2 0 ]}.
Proof.
  refine (proj1 (only_post_has_effects asciiLower 7
                   (mkRequest (js "GET") (Some sampleAddress) None goodBody)
                   InsertSucceeds {[ sampleAddress := mkRecord 2 0 ]} _)).
  intros H. vm_compute in H. discriminate.
Defined.

Lemma persistence_failures_witness :
  snd (handler asciiLower 0 (ev_req (submissionAt 0 goodBody InsertFails))
         InsertFails ∅)
  = mkResult
      (errorResponse 500 "Failed to submit message. Please try again.")
      (Some (mkRow (js "Al") (js "a@b.com") (js "Hello there!"))).
Proof.
  refine (proj1 (persistence_failures asciiLower 0
                   (ev_req (submissionAt 0 goodBody InsertFails)) ∅
                   (js "Al") (js "A@B.COM") (js "Hello there!") _ _ _ _)).
  - split; [reflexivity |]. split; [reflexivity |].
    eexists. repeat split; reflexivity.
  - reflexivity.
  - reflexivity.
  - reflexivity.
Defined.

Lemma counts_stay_within_limit_witness :
  1 <= count (mkRecord 5 0) <= 5.
Proof.
  refine (counts_stay_within_limit asciiLower
            [ submissionAt 0 goodBody InsertSucceeds;
              submissionAt 1 goodBody InsertSucceeds;
              submissionAt 2 shortName InsertSucceeds;
              submissionAt 3 goodBody InsertFails;
              submissionAt 4 goodBody InsertSucceeds;
              submissionAt 5 goodBody InsertSucceeds;
              submissionAt 6 goodBody InsertSucceeds ]
            sampleAddress (mkRecord 5 0) _).
  reflexivity.
Defined.

Lemma readmitted_after_expiry_witness :
  let six := [ submissionAt 0 goodBody InsertSucceeds;
               submissionAt 1 goodBody InsertSucceeds;
               submissionAt 2 goodBody InsertSucceeds;
               submissionAt 3 goodBody InsertSucceeds;
               submissionAt 4 goodBody InsertSucceeds;
               submissionAt 5 goodBody InsertSucceeds ] in
  admitted (snd (serve asciiLower (fst (run asciiLower ∅ six))
                   (submissionAt 3600001 goodBody InsertSucceeds))) = true.
Proof.
  intros six.
  refine (proj2 (readmitted_after_expiry asciiLower sampleAddress ∅
                   (submissionAt 0 goodBody InsertSucceeds)
                   [ submissionAt 1 goodBody InsertSucceeds;
                     submissionAt 2 goodBody InsertSucceeds;
                     submissionAt 3 goodBody InsertSucceeds;
                     submissionAt 4 goodBody InsertSucceeds;
                     submissionAt 5 goodBody InsertSucceeds ]
                   (submissionAt 3600001 goodBody InsertSucceeds) _ _ _ _ _)).
  - reflexivity.
  - vm_compute. exact I.
  - repeat constructor; intros _; vm_compute; discriminate.
  - reflexivity.
  - vm_compute. reflexivity.
Defined.

Lemma accepted_email_is_plain_witness :
  occurrences 64 (js "ada.l@example.org") = 1%nat.
Proof.
  refine (proj1 (accepted_email_is_plain asciiLower
                   (js "  Ada.L@Example.org ") _)).
  reflexivity.
Defined.

Lemma sent_body_passes_name_and_message_witness :
  snd (handler asciiLower 0
         (postJson (ContactForm.payloadJson
                      (mkRow (js "Al") (js "a@b.com") (js "Hello there!"))))
         InsertSucceeds ∅)
  = mkResult successResponse
      (Some (mkRow (js "Al") (js "a@b.com") (js "Hello there!"))).
Proof.
  refine (proj1 (sent_body_passes_name_and_message asciiLower (fun _ => [])
                   (ContactForm.mkFormData (js " Al") (js "A@B.COM ")
                      (js "Hello there! "))
                   (ContactForm.Resolves None None)
                   (mkRow (js "Al") (js "a@b.com") (js "Hello there!"))
                   0 _ ∅ _ _ _ _) _).
  - reflexivity.
  - reflexivity.
  - reflexivity.
  - reflexivity.
  - reflexivity.
Defined.

Lemma window_start_only_moves_forward_witness :
  exists r',
    fst (run asciiLower {[ sampleAddress := mkRecord 5 1000 ]}
           [ submissionAt 500 goodBody InsertSucceeds;
             submissionAt 3601001 goodBody InsertSucceeds ])
      !! sampleAddress = Some r'
    /\ (windowStart r' = 1000 \/ windowStart r' > 1000 + 3600000).
Proof.
  refine (window_start_only_moves_forward asciiLower sampleAddress
            {[ sampleAddress := mkRecord 5 1000 ]}
            [ submissionAt 500 goodBody InsertSucceeds;
              submissionAt 3601001 goodBody InsertSucceeds ]
            (mkRecord 5 1000) _).
  reflexivity.
Defined.
